(** * Fixed-width price records: a shallow embedding of [src/main.py]

    The development follows the layout of the Python module: the primitives
    of [str] and [dict] the module relies on, its exceptions and file reads,
    then [get_tics], [read_dat], [line_to_dict], [verify_tickers],
    [verif_cols] and [create_data_dict], and finally the properties. *)

From Stdlib Require Import String Ascii List Arith Bool Lia.
Import ListNotations.
Local Open Scope list_scope.
Local Open Scope string_scope.

(** ** Python [str]

    A [str] is modelled by [string]; a character stands for the code point
    of the same number, so the model covers text of the first 256 code
    points. *)

Module Str.

Definition dquote : ascii := ascii_of_nat 34.
Definition equals : ascii := ascii_of_nat 61.
Definition LF : ascii := ascii_of_nat 10.
Definition CR : ascii := ascii_of_nat 13.
Definition slash : ascii := ascii_of_nat 47.

(** [c.isspace()] on code points below 256: TAB, LF, VT, FF, CR, the four
    separators FS, GS, RS, US, the space, NEL and the no-break space. *)
Definition is_space (c : ascii) : bool :=
  let n := nat_of_ascii c in
  (((9 <=? n) && (n <=? 13)) || ((28 <=? n) && (n <=? 32))
   || (n =? 133) || (n =? 160))%nat.

(** [c.lower()] on code points below 256: A-Z and the accented capitals
    of the Latin-1 block (the multiplication sign excluded) move by 32. *)
Definition lower_char (c : ascii) : ascii :=
  let n := nat_of_ascii c in
  if (((65 <=? n) && (n <=? 90))
      || ((192 <=? n) && (n <=? 214))
      || ((216 <=? n) && (n <=? 222)))%nat
  then ascii_of_nat (n + 32) else c.

Fixpoint lower (s : string) : string :=
  match s with
  | EmptyString => EmptyString
  | String c r => String (lower_char c) (lower r)
  end.

Fixpoint lstrip_by (p : ascii -> bool) (s : string) : string :=
  match s with
  | EmptyString => EmptyString
  | String c r => if p c then lstrip_by p r else s
  end.

Fixpoint rstrip_by (p : ascii -> bool) (s : string) : string :=
  match s with
  | EmptyString => EmptyString
  | String c r =>
      match rstrip_by p r with
      | EmptyString => if p c then EmptyString else String c EmptyString
      | r' => String c r'
      end
  end.

Definition strip_by (p : ascii -> bool) (s : string) : string :=
  rstrip_by p (lstrip_by p s).

(** [s.strip()] *)
Definition strip (s : string) : string := strip_by is_space s.

Fixpoint contains (c : ascii) (chars : string) : bool :=
  match chars with
  | EmptyString => false
  | String d r => Ascii.eqb d c || contains c r
  end.

(** [s.strip(chars)] *)
Definition strip_chars (chars s : string) : string :=
  strip_by (fun c => contains c chars) s.

(** [s.split(sep)] for a separator of one character: never empty. *)
Fixpoint split (sep : ascii) (s : string) : list string :=
  match s with
  | EmptyString => [EmptyString]
  | String c r =>
      if Ascii.eqb c sep then EmptyString :: split sep r
      else match split sep r with
           | [] => [String c EmptyString]
           | h :: t => String c h :: t
           end
  end.

Fixpoint drop (n : nat) (s : string) {struct s} : string :=
  match s with
  | EmptyString => EmptyString
  | String c r => match n with 0 => s | S n' => drop n' r end
  end.

Fixpoint take (n : nat) (s : string) {struct s} : string :=
  match s with
  | EmptyString => EmptyString
  | String c r => match n with 0 => EmptyString | S n' => String c (take n' r) end
  end.

(** [s[start:stop]] for indices that are not negative: both ends are
    clamped to the length, and the slice is empty when [stop <= start]. *)
Definition slice (s : string) (start stop : nat) : string :=
  take (stop - start) (drop start s).

Definition startswith (c : ascii) (s : string) : bool :=
  match s with
  | EmptyString => false
  | String d _ => Ascii.eqb d c
  end.

Fixpoint endswith (c : ascii) (s : string) : bool :=
  match s with
  | EmptyString => false
  | String d EmptyString => Ascii.eqb d c
  | String _ r => endswith c r
  end.

Definition is_empty (s : string) : bool :=
  match s with EmptyString => true | _ => false end.

Fixpoint concat (l : list string) : string :=
  match l with
  | [] => EmptyString
  | s :: r => s ++ concat r
  end.

Fixpoint all (p : ascii -> bool) (s : string) : bool :=
  match s with
  | EmptyString => true
  | String c r => p c && all p r
  end.

End Str.

(** ** Python [dict] with [str] keys

    Keys are kept in insertion order; assigning to a key that is present
    replaces its value in place. *)

Module Dict.
Section WithValue.
Context {V : Type}.

Definition t : Type := list (string * V).

Definition empty : t := [].

Fixpoint get (k : string) (d : t) : option V :=
  match d with
  | [] => None
  | (k', v) :: r => if String.eqb k' k then Some v else get k r
  end.

(** [k in d] *)
Definition mem (k : string) (d : t) : bool :=
  match get k d with Some _ => true | None => false end.

(** [d[k] = v] *)
Fixpoint set (k : string) (v : V) (d : t) : t :=
  match d with
  | [] => [(k, v)]
  | (k', v') :: r =>
      if String.eqb k' k then (k', v) :: r else (k', v') :: set k v r
  end.

(** [list(d.keys())] *)
Definition keys (d : t) : list string := map fst d.

(** The invariant of every Python dict: no key occurs twice. *)
Definition wf (d : t) : Prop := NoDup (keys d).
End WithValue.
Arguments t : clear implicits.
End Dict.

(** [x in l] for a list of [str] *)
Definition list_mem (x : string) (l : list string) : bool :=
  existsb (String.eqb x) l.

(** ** Exceptions and results *)

Inductive exn : Type :=
| Exception_                          (* [raise Exception] *)
| KeyError (key : string)             (* [d[k]] on an absent key *)
| FileNotFoundError (path : string).  (* [open] on an absent file *)

Definition result (A : Type) : Type := (exn + A)%type.

Definition ok {A} (a : A) : result A := inr a.
Definition raise {A} (e : exn) : result A := inl e.

Definition rbind {A B} (m : result A) (k : A -> result B) : result B :=
  match m with
  | inl e => inl e
  | inr a => k a
  end.

Notation "x <- m ;; k" := (rbind m (fun x => k))
  (at level 61, m at next level, right associativity).

(** [d[k]] as an expression *)
Definition subscript {V} (d : Dict.t V) (k : string) : result V :=
  match Dict.get k d with
  | Some v => ok v
  | None => raise (KeyError k)
  end.

(** [for x in l: body(x)] where the body only continues or raises *)
Fixpoint for_each {A} (body : A -> result unit) (l : list A) : result unit :=
  match l with
  | [] => ok tt
  | x :: r => rbind (body x) (fun _ => for_each body r)
  end.

(** [o or dflt] for an optional list [o]: the default replaces [None] and
    the empty list. *)
Definition or_else {A} (o : option (list A)) (dflt : list A) : list A :=
  match o with
  | Some (x :: r) => x :: r
  | _ => dflt
  end.

(** Truth value of an optional list argument: [None] and [[]] are falsy. *)
Definition truthy {A} (o : option (list A)) : bool :=
  match o with
  | Some (_ :: _) => true
  | _ => false
  end.

(** ** File reads

    The only effects of the module are exceptions and reads of text files.
    A computation threads the log of the paths it has tried to open, in
    order, and ends in a result. *)

Definition trace : Type := list string.

Definition IO (A : Type) : Type := trace -> result A * trace.

Definition io_ret {A} (a : A) : IO A := fun tr => (ok a, tr).

Definition io_bind {A B} (m : IO A) (k : A -> IO B) : IO B :=
  fun tr =>
    match m tr with
    | (inl e, tr') => (inl e, tr')
    | (inr a, tr') => k a tr'
    end.

Definition lift {A} (r : result A) : IO A := fun tr => (r, tr).

Notation "x <~ m ;; k" := (io_bind m (fun x => k))
  (at level 61, m at next level, right associativity).

(** A call from a fresh log. *)
Definition run {A} (m : IO A) : result A * trace := m [].

(** Text mode with the default [newline=None]: CR LF and a lone CR are read
    as LF. *)
Fixpoint universal_newlines (s : string) : string :=
  match s with
  | EmptyString => EmptyString
  | String c r =>
      if Ascii.eqb c Str.CR then
        String Str.LF
          match r with
          | String c2 r2 =>
              if Ascii.eqb c2 Str.LF then universal_newlines r2
              else universal_newlines r
          | EmptyString => EmptyString
          end
      else String c (universal_newlines r)
    end.

(** [for line in file]: the text cut after each LF, every line keeping its
    terminator; a last line without terminator is yielded as it is. *)
Fixpoint text_lines (s : string) : list string :=
  match s with
  | EmptyString => []
  | String c r =>
      if Ascii.eqb c Str.LF then String c EmptyString :: text_lines r
      else match text_lines r with
           | [] => [String c EmptyString]
           | l :: ls => String c l :: ls
           end
  end.

(** [os.path.join(a, b)] on a POSIX system *)
Definition path_join (a b : string) : string :=
  if Str.startswith Str.slash b then b
  else if Str.is_empty a || Str.endswith Str.slash a then a ++ b
  else a ++ String Str.slash b.

(** ** The module *)

Definition COLUMNS : list string :=
  ["Volume"; "Date"; "Adj Close"; "Close"; "Open"; "High"].

Definition COLWIDTHS : Dict.t nat :=
  [("Volume", 14); ("Date", 11); ("Adj Close", 19); ("Close", 10);
   ("Open", 6); ("High", 20)].

(** The value [{'exchange': ..., 'data': [...]}] built for one ticker. *)
Record TickerDataset : Type := mkTickerDataset {
  exchange : string;
  data : list (Dict.t string)
}.

(** [line_to_dict]: the loop over [COLUMNS], with [result] and [start] as
    its state. *)
Fixpoint line_to_dict_loop (line : string) (cols : list string)
    (res : Dict.t string) (start : nat) : result (Dict.t string) :=
  match cols with
  | [] => ok res
  | col :: rest =>
      width <- subscript COLWIDTHS col ;;
      line_to_dict_loop line rest
        (Dict.set col (Str.slice line start (start + width)) res)
        (start + width)
  end.

Definition line_to_dict (line : string) : result (Dict.t string) :=
  line_to_dict_loop line COLUMNS Dict.empty 0.

Definition verify_tickers (tic_exchange_dic : Dict.t string)
    (tickers_lst : option (list string)) : result unit :=
  match tickers_lst with
  | Some l =>
      if (0 <? List.length l)%nat then
        for_each
          (fun i => if Dict.mem i tic_exchange_dic then ok tt
                    else raise Exception_) l
      else raise Exception_
  | None => ok tt
  end.

Definition verif_cols (col_lst : option (list string)) : result unit :=
  match col_lst with
  | Some l =>
      if (0 <? List.length l)%nat then
        for_each
          (fun i => if list_mem i COLUMNS then ok tt else raise Exception_) l
      else raise Exception_
  | None => ok tt
  end.

(** One line of the lookup file: the body of the loop of [get_tics]. *)
Definition get_tics_line (tic_map : Dict.t string) (line : string)
    : Dict.t string :=
  let part := Str.split Str.equals (Str.strip line) in
  if (2 <=? List.length part)%nat then
    let ticker_code :=
      Str.lower (Str.strip_chars (String Str.dquote EmptyString)
                   (last part EmptyString)) in
    let ticker_exchange :=
      Str.lower (Str.strip_chars (String Str.dquote EmptyString)
                   (hd EmptyString part)) in
    Dict.set ticker_code ticker_exchange tic_map
  else tic_map.

Definition get_tics_lines (lines : list string) : Dict.t string :=
  fold_left get_tics_line lines Dict.empty.

(** [{key: raw_line[key] for key in col_lst if key in raw_line}] *)
Fixpoint project (col_lst : list string) (raw_line acc : Dict.t string)
    : result (Dict.t string) :=
  match col_lst with
  | [] => ok acc
  | key :: rest =>
      if Dict.mem key raw_line then
        v <- subscript raw_line key ;;
        project rest raw_line (Dict.set key v acc)
      else project rest raw_line acc
  end.

(** The loop over [raw_data] in [process_ticker_data]. *)
Fixpoint process_lines (col_lst : option (list string))
    (raw_data : list string) (processed_data : list (Dict.t string))
    : result (list (Dict.t string)) :=
  match raw_data with
  | [] => ok processed_data
  | line :: rest =>
      raw_line <- line_to_dict line ;;
      filter_ticker <-
        match col_lst with
        | Some (c :: cs) => project (c :: cs) raw_line Dict.empty
        | _ => ok raw_line
        end ;;
      process_lines col_lst rest (processed_data ++ [filter_ticker])%list
  end.

Section FileSystem.

(** [cfg.PRJDIR], set in [toolkit_config]. *)
Variable PRJDIR : string.

(** The text files: the decoded content of the file at a path, when there
    is one.  A path of the model is absent or is a readable file of valid
    UTF-8 text; the other ways [open] and the decoding can fail (a path
    through a file or with a NUL, a directory, a permission, bytes that do
    not decode) are outside the model. *)
Variable fs : string -> option string.

Definition ROOTDIR : string := path_join PRJDIR "project1".
Definition DATDIR : string := path_join ROOTDIR "data".
Definition TICPATH : string := path_join ROOTDIR "TICKERS.txt".

(** [with open(pth, mode='rt', encoding='utf-8') as file], read to its
    end: the lines of the file, or the exception of [open] on an absent
    file. *)
Definition open_rt (pth : string) : IO (list string) :=
  fun tr =>
    (match fs pth with
     | Some text => ok (text_lines (universal_newlines text))
     | None => raise (FileNotFoundError pth)
     end, (tr ++ [pth])%list).

Definition get_tics (pth : string) : IO (Dict.t string) :=
  lines <~ open_rt pth ;;
  io_ret (get_tics_lines lines).

Definition read_dat (tic : string) : IO (list string) :=
  let file_path := path_join DATDIR (tic ++ "_prc.dat") in
  lines <~ open_rt file_path ;;
  io_ret (map Str.strip lines).

Definition process_ticker_data (tic_exchange_dic : Dict.t string)
    (col_lst : option (list string)) (ticker : string) : IO TickerDataset :=
  raw_data <~ read_dat ticker ;;
  processed_data <~ lift (process_lines col_lst raw_data []) ;;
  ex <~ lift (subscript tic_exchange_dic ticker) ;;
  io_ret {| exchange := Str.lower ex; data := processed_data |}.

(** [{ticker: f(ticker) for ticker in target_ticker}] *)
Fixpoint comprehension (f : string -> IO TickerDataset)
    (target_ticker : list string) (acc : Dict.t TickerDataset)
    : IO (Dict.t TickerDataset) :=
  match target_ticker with
  | [] => io_ret acc
  | ticker :: rest =>
      v <~ f ticker ;;
      comprehension f rest (Dict.set ticker v acc)
  end.

Definition create_data_dict (tic_exchange_dic : Dict.t string)
    (tickers_lst col_lst : option (list string))
    : IO (Dict.t TickerDataset) :=
  let col_lst := if negb (truthy col_lst) then None else col_lst in
  io_bind (lift (if truthy col_lst then verif_cols col_lst else ok tt))
    (fun _ =>
  let target_ticker := or_else tickers_lst (Dict.keys tic_exchange_dic) in
  io_bind (lift (if truthy tickers_lst
                 then verify_tickers tic_exchange_dic tickers_lst
                 else ok tt))
    (fun _ =>
  comprehension (process_ticker_data tic_exchange_dic col_lst)
    target_ticker Dict.empty)).

End FileSystem.


(** ** Vocabulary of the statements *)

(** Width of a schema column, as [COLWIDTHS] gives it. *)
Definition width_of (col : string) : nat :=
  match Dict.get col COLWIDTHS with
  | Some w => w
  | None => 0
  end.

(** Cumulative offset of a column: the widths of the columns before it. *)
Fixpoint offset_in (cols : list string) (col : string) : nat :=
  match cols with
  | [] => 0
  | c :: rest => if String.eqb c col then 0 else width_of c + offset_in rest col
  end.

Definition offset_of (col : string) : nat := offset_in COLUMNS col.

(** Sum of all schema widths. *)
Definition schema_width : nat :=
  fold_right (fun c n => width_of c + n) 0 COLUMNS.

(** [[d[c] for c in cols]] *)
Fixpoint values_of (d : Dict.t string) (cols : list string)
    : result (list string) :=
  match cols with
  | [] => ok []
  | c :: rest =>
      v <- subscript d c ;;
      vs <- values_of d rest ;;
      ok (v :: vs)
  end.

(** Decoding a line and joining the values again, in [COLUMNS] order. *)
Definition decode_concat (line : string) : result string :=
  d <- line_to_dict line ;;
  vs <- values_of d COLUMNS ;;
  ok (Str.concat vs).

(** Path of the data file of a ticker, as [read_dat] builds it. *)
Definition dat_path (PRJDIR tic : string) : string :=
  path_join (DATDIR PRJDIR) (tic ++ "_prc.dat").

(** Every ticker of a provided list is a key of the map. *)
Definition valid_tickers (dic : Dict.t string)
    (tickers_lst : option (list string)) : Prop :=
  forall l t, tickers_lst = Some l -> In t l -> Dict.mem t dic = true.

(** Every name of a provided list is a schema column. *)
Definition valid_cols (col_lst : option (list string)) : Prop :=
  forall l c, col_lst = Some l -> In c l -> list_mem c COLUMNS = true.

(** Every value of a dict satisfies [P]. *)
Definition all_values {V} (P : V -> Prop) (d : Dict.t V) : Prop :=
  forall k v, Dict.get k d = Some v -> P v.

(** Every record of a dataset has exactly the schema columns. *)
Definition full_records (ds : TickerDataset) : Prop :=
  forall rec, In rec (data ds) -> Dict.keys rec = COLUMNS.

(** ** Lookup files *)

(** [s] between double quotes. *)
Definition quoted (s : string) : string :=
  String Str.dquote (s ++ String Str.dquote EmptyString).

(** The line for an exchange [E] and a ticker [T], without terminator. *)
Definition lookup_line (E T : string) : string :=
  quoted E ++ String Str.equals (quoted T).

(** A character of a plain name: not the equals sign, not a double quote
    and not a line break. *)
Definition plain_char (c : ascii) : bool :=
  negb (Ascii.eqb c Str.equals) && negb (Ascii.eqb c Str.dquote)
  && negb (Ascii.eqb c Str.LF) && negb (Ascii.eqb c Str.CR).

Definition plain (s : string) : bool := Str.all plain_char s.

(** A line of a lookup file: empty ([None]) or an exchange and a ticker. *)
Definition entry : Type := option (string * string).

Definition entry_line (e : entry) : string :=
  match e with
  | None => String Str.LF EmptyString
  | Some (E, T) => lookup_line E T ++ String Str.LF EmptyString
  end.

(** The text of the lookup file made of these lines. *)
Definition lookup_text (entries : list entry) : string :=
  Str.concat (map entry_line entries).

Definition plain_entry (e : entry) : bool :=
  match e with
  | None => true
  | Some (E, T) => plain E && plain T
  end.

(** A line with spaces around the equals sign. *)
Definition spaced_line : string :=
  quoted "NYSE" ++ " = " ++ quoted "IBM" ++ String Str.LF EmptyString.

(** ** Sample data *)

(** The map [{"aapl": "nasdaq"}]. *)
Definition sample_dic : Dict.t string := [("aapl", "nasdaq")].

(** The line of the example of the specification: three pieces of 11, 11
    and 18 characters. *)
Definition sample_line : string :=
  "        100" ++ "2020-01-01 " ++ "   150.00000000000".

(** A project directory whose data directory holds the one file
    [aapl_prc.dat], made of [sample_line]. *)
Definition sample_fs (pth : string) : option string :=
  if String.eqb pth "/prj/project1/data/aapl_prc.dat" then Some sample_line
  else None.

(** A map with a second ticker, which has no data file in [sample_fs]. *)
Definition sample_dic2 : Dict.t string :=
  [("aapl", "nasdaq"); ("baba", "nyse")].

(** The document the example of the specification expects. *)
Definition sample_expected : Dict.t TickerDataset :=
  [("aapl",
    {| exchange := "nasdaq";
       data := [[("Date", "2020-01-01 "); ("Close", EmptyString)]] |})].

(** A lookup file that defines the ticker of Apple twice, in two
    spellings, around an empty line. *)
Definition sample_entries : list entry :=
  [Some ("NASDAQ", "AAPL"); None; Some ("NYSE", "Aapl"); Some ("NYSE", "IBM")].

Definition sample_lookup_fs (pth : string) : option string :=
  if String.eqb pth "/prj/project1/TICKERS.txt"
  then Some (lookup_text sample_entries) else None.

(** ** Further vocabulary *)

(** The column list [create_data_dict] works with after its first
    statement: an empty list has become [None]. *)
Definition normalised (col_lst : option (list string))
    : option (list string) :=
  if negb (truthy col_lst) then None else col_lst.

(** The record of a line, once [line_to_dict] has returned it. *)
Definition decoded (line : string) : Dict.t string :=
  match line_to_dict line with
  | inr d => d
  | inl _ => Dict.empty
  end.

(** The record kept for a line under a column list, once the comprehension
    over the columns has returned it. *)
Definition selected (col_lst : option (list string))
    (raw_line : Dict.t string) : Dict.t string :=
  match col_lst with
  | Some (c :: cs) =>
      match project (c :: cs) raw_line Dict.empty with
      | inr d => d
      | inl _ => Dict.empty
      end
  | _ => raw_line
  end.

(** The stripped lines of a text, as [read_dat] returns them. *)
Definition stripped_lines (text : string) : list string :=
  map Str.strip (text_lines (universal_newlines text)).

(** A string in lower case. *)
Definition lowered (s : string) : Prop := Str.lower s = s.

(** A string with no double quote at either end. *)
Definition unquoted (s : string) : Prop :=
  Str.startswith Str.dquote s = false /\ Str.endswith Str.dquote s = false.

(** The record of an empty line. *)
Definition empty_record : Dict.t string :=
  map (fun col => (col, EmptyString)) COLUMNS.

(** A project directory with a lookup file of one line and the data file
    of its ticker. *)
Definition sample_project_fs (pth : string) : option string :=
  if String.eqb pth "/prj/project1/TICKERS.txt"
  then Some (lookup_text [Some ("NASDAQ", "AAPL")])
  else sample_fs pth.

(** The dataset of the sample data under the columns [Date] and [Close]. *)
Definition sample_dataset : TickerDataset :=
  {| exchange := "nasdaq";
     data := [[("Date", "   150.0000"); ("Close", EmptyString)]] |}.

(** The line of the example with its three pieces at the widths of their
    columns, 14, 11 and 19: the first and the third piece padded on the
    left. *)
Definition padded_line : string :=
  "           100" ++ "2020-01-01 " ++ "    150.00000000000".

(** A project directory whose data directory holds the one file
    [aapl_prc.dat], made of [padded_line]. *)
Definition padded_fs (pth : string) : option string :=
  if String.eqb pth "/prj/project1/data/aapl_prc.dat" then Some padded_line
  else None.

(** The document the call returns on [padded_line]. *)
Definition padded_result : Dict.t TickerDataset :=
  [("aapl",
    {| exchange := "nasdaq";
       data := [[("Date", "    150.000"); ("Close", EmptyString)]] |})].

(** A data file of three lines, the second one of spaces only. *)
Definition blank_fs (pth : string) : option string :=
  if String.eqb pth "/prj/project1/data/aapl_prc.dat"
  then Some (padded_line ++ String Str.LF ("   " ++ String Str.LF padded_line))
  else None.

(** * Properties *)

(** ** Strings *)

Lemma append_nil_r (s : string) : s ++ EmptyString = s.
Proof. induction s as [|c s IH]; simpl; [reflexivity | now rewrite IH]. Qed.

Lemma append_assoc (s t u : string) : (s ++ t) ++ u = s ++ (t ++ u).
Proof. induction s as [|c s IH]; simpl; [reflexivity | now rewrite IH]. Qed.

Lemma append_length (s t : string) :
  String.length (s ++ t) = String.length s + String.length t.
Proof. induction s as [|c s IH]; simpl; [reflexivity | now rewrite IH]. Qed.

(** ** Slices *)

Lemma take_0 (s : string) : Str.take 0 s = EmptyString.
Proof. destruct s; reflexivity. Qed.

Lemma drop_0 (s : string) : Str.drop 0 s = s.
Proof. destruct s; reflexivity. Qed.

Lemma take_all (s : string) (n : nat) :
  String.length s <= n -> Str.take n s = s.
Proof.
  revert n; induction s as [|c s IH]; intros n Hn; [reflexivity|].
  destruct n as [|n]; simpl in *; [lia|].
  f_equal. apply IH. lia.
Qed.

Lemma drop_all (s : string) (n : nat) :
  String.length s <= n -> Str.drop n s = EmptyString.
Proof.
  revert n; induction s as [|c s IH]; intros n Hn; [reflexivity|].
  destruct n as [|n]; simpl in *; [lia|].
  apply IH. lia.
Qed.

Lemma take_length (s : string) (n : nat) :
  n <= String.length s -> String.length (Str.take n s) = n.
Proof.
  revert n; induction s as [|c s IH]; intros n Hn; simpl in *.
  - lia.
  - destruct n as [|n]; simpl; [reflexivity|].
    f_equal. apply IH. lia.
Qed.

Lemma drop_length (s : string) (n : nat) :
  String.length (Str.drop n s) = String.length s - n.
Proof.
  revert n; induction s as [|c s IH]; intros n; [reflexivity|].
  destruct n as [|n]; simpl; [reflexivity|]. apply IH.
Qed.

Lemma take_add (s : string) (n m : nat) :
  Str.take (n + m) s = Str.take n s ++ Str.take m (Str.drop n s).
Proof.
  revert n; induction s as [|c s IH]; intros n.
  - reflexivity.
  - destruct n as [|n]; simpl.
    + reflexivity.
    + f_equal. apply IH.
Qed.

Lemma drop_add (s : string) (n m : nat) :
  Str.drop (n + m) s = Str.drop m (Str.drop n s).
Proof.
  revert n; induction s as [|c s IH]; intros n.
  - reflexivity.
  - destruct n as [|n]; simpl.
    + reflexivity.
    + apply IH.
Qed.

(** Two adjacent slices make one. *)
Lemma slice_adjacent (s : string) (a b c : nat) :
  a <= b -> b <= c ->
  Str.slice s a b ++ Str.slice s b c = Str.slice s a c.
Proof.
  intros Hab Hbc. unfold Str.slice.
  replace (c - a) with ((b - a) + (c - b)) by lia.
  rewrite take_add. f_equal.
  replace b with (a + (b - a)) at 2 by lia.
  rewrite drop_add. reflexivity.
Qed.

Lemma slice_from_0 (s : string) (n : nat) : Str.slice s 0 n = Str.take n s.
Proof. unfold Str.slice. rewrite drop_0, Nat.sub_0_r. reflexivity. Qed.

Lemma slice_beyond (s : string) (a b : nat) :
  String.length s <= a -> Str.slice s a b = EmptyString.
Proof. intros H. unfold Str.slice. rewrite drop_all by exact H. reflexivity. Qed.

Lemma slice_partial (s : string) (a b : nat) :
  String.length s <= b -> Str.slice s a b = Str.drop a s.
Proof.
  intros H. unfold Str.slice. apply take_all. rewrite drop_length. lia.
Qed.

Lemma slice_full (s : string) (a b : nat) :
  b <= String.length s -> String.length (Str.slice s a b) = b - a.
Proof.
  intros H. unfold Str.slice. apply take_length. rewrite drop_length. lia.
Qed.


(** ** The decoder *)

(** The record [line_to_dict] builds, column by column. *)
Lemma line_to_dict_eq (line : string) :
  line_to_dict line =
  ok [("Volume", Str.slice line 0 14); ("Date", Str.slice line 14 25);
      ("Adj Close", Str.slice line 25 44); ("Close", Str.slice line 44 54);
      ("Open", Str.slice line 54 60); ("High", Str.slice line 60 80)].
Proof. reflexivity. Qed.

Lemma schema_width_eq : schema_width = 80.
Proof. reflexivity. Qed.

Lemma decode_concat_take (line : string) :
  decode_concat line = ok (Str.take 80 line).
Proof.
  unfold decode_concat. rewrite line_to_dict_eq. cbn.
  rewrite append_nil_r.
  rewrite <- (slice_from_0 line 80).
  rewrite <- (slice_adjacent line 0 60 80) by lia.
  rewrite <- (slice_adjacent line 0 54 60) by lia.
  rewrite <- (slice_adjacent line 0 44 54) by lia.
  rewrite <- (slice_adjacent line 0 25 44) by lia.
  rewrite <- (slice_adjacent line 0 14 25) by lia.
  rewrite !append_assoc. reflexivity.
Qed.

(** C10: joining the values of [line_to_dict line] in [COLUMNS] order gives
    the first 80 characters of the line, 80 being the sum of the schema
    widths; a line of at most 80 characters is given back whole. *)
Theorem line_to_dict_concat (line : string) :
  schema_width = 80 /\
  decode_concat line = ok (Str.take schema_width line) /\
  (String.length line <= 80 -> decode_concat line = ok line).
Proof.
  split; [reflexivity|]. rewrite schema_width_eq. split.
  - apply decode_concat_take.
  - intros Hlen. rewrite decode_concat_take, take_all by exact Hlen.
    reflexivity.
Qed.

Lemma line_to_dict_concat_witness :
  String.length "100 2020-01-01" <= 80 /\
  decode_concat "100 2020-01-01" = ok "100 2020-01-01".
Proof.
  split; [simpl; lia|].
  apply (proj2 (proj2 (line_to_dict_concat "100 2020-01-01"))).
  simpl; lia.
Defined.

(** C6: [line_to_dict] returns on every line, also on one shorter than the
    schema; the record has one entry per schema column, each the slice of
    the line at the column's offset: empty when the offset is at or beyond
    the end of the line, what is left of the line when the line ends inside
    the column, and of the full width otherwise. *)
Theorem line_to_dict_never_fails (line : string) :
  exists d,
    line_to_dict line = ok d /\
    Dict.keys d = COLUMNS /\
    forall col, In col COLUMNS ->
      exists v,
        Dict.get col d = Some v /\
        v = Str.slice line (offset_of col) (offset_of col + width_of col) /\
        (String.length line <= offset_of col -> v = EmptyString) /\
        (String.length line <= offset_of col + width_of col ->
         v = Str.drop (offset_of col) line) /\
        (offset_of col + width_of col <= String.length line ->
         String.length v = width_of col).
Proof.
  eexists. split; [apply line_to_dict_eq|]. split; [reflexivity|].
  intros col Hcol.
  exists (Str.slice line (offset_of col) (offset_of col + width_of col)).
  split; [|split; [reflexivity|split; [|split]]].
  - simpl in Hcol.
    repeat (destruct Hcol as [<- | Hcol]; [reflexivity|]). contradiction.
  - apply slice_beyond.
  - apply slice_partial.
  - intros H. rewrite slice_full by exact H. lia.
Qed.

Lemma line_to_dict_never_fails_witness :
  exists d,
    line_to_dict "100 2020-01-01" = ok d /\
    Dict.get "Volume" d = Some "100 2020-01-01" /\
    Dict.get "Date" d = Some EmptyString.
Proof.
  destruct (line_to_dict_never_fails "100 2020-01-01") as (d & Hd & _ & Hcols).
  exists d. split; [exact Hd|]. split.
  - destruct (Hcols "Volume") as (v & Hv & _ & _ & Hpart & _).
    + simpl; auto.
    + rewrite Hv. f_equal. apply Hpart. vm_compute; lia.
  - destruct (Hcols "Date") as (v & Hv & _ & Hnone & _).
    + simpl; auto.
    + rewrite Hv. f_equal. apply Hnone. vm_compute; lia.
Defined.

(** ** Dicts *)

Section DictFacts.
Context {V : Type}.
Implicit Types (d : Dict.t V) (k : string) (v : V).

Lemma get_set_same d k v : Dict.get k (Dict.set k v d) = Some v.
Proof.
  induction d as [|[k' v'] d IH]; simpl.
  - now rewrite String.eqb_refl.
  - destruct (String.eqb k' k) eqn:E; simpl; rewrite E; [reflexivity|exact IH].
Qed.

Lemma get_set_other d k k' v :
  k' <> k -> Dict.get k (Dict.set k' v d) = Dict.get k d.
Proof.
  intros Hne. induction d as [|[k0 v0] d IH]; simpl.
  - apply String.eqb_neq in Hne. now rewrite Hne.
  - destruct (String.eqb k0 k') eqn:E; simpl.
    + apply String.eqb_eq in E. subst k0.
      apply String.eqb_neq in Hne. now rewrite Hne.
    + now rewrite IH.
Qed.

Lemma mem_keys d k : Dict.mem k d = true <-> In k (Dict.keys d).
Proof.
  unfold Dict.mem. induction d as [|[k' v'] d IH]; simpl.
  - split; [discriminate|contradiction].
  - destruct (String.eqb_spec k' k) as [->|Hne].
    + split; auto.
    + rewrite IH. split; [auto|]. intros [H|H]; [contradiction|exact H].
Qed.

Lemma get_in_keys d k : In k (Dict.keys d) -> exists v, Dict.get k d = Some v.
Proof.
  intros H. apply mem_keys in H. unfold Dict.mem in H.
  destruct (Dict.get k d) as [v|]; [now exists v|discriminate].
Qed.

Lemma keys_set_old d k v :
  In k (Dict.keys d) -> Dict.keys (Dict.set k v d) = Dict.keys d.
Proof.
  induction d as [|[k' v'] d IH]; simpl; [contradiction|].
  intros Hin. destruct (String.eqb_spec k' k) as [->|Hne]; simpl.
  - reflexivity.
  - f_equal. apply IH. destruct Hin; [contradiction|assumption].
Qed.

Lemma keys_set_new d k v :
  ~ In k (Dict.keys d) -> Dict.keys (Dict.set k v d) = (Dict.keys d ++ [k])%list.
Proof.
  induction d as [|[k' v'] d IH]; simpl; [reflexivity|].
  intros Hin. destruct (String.eqb_spec k' k) as [->|Hne]; simpl.
  - exfalso. auto.
  - f_equal. apply IH. auto.
Qed.

Lemma all_values_set (P : V -> Prop) d k v :
  P v -> all_values P d -> all_values P (Dict.set k v d).
Proof.
  intros Hv Hd k' v' Hget.
  destruct (String.eqb_spec k k') as [->|Hne].
  - rewrite get_set_same in Hget. now injection Hget as <-.
  - rewrite get_set_other in Hget by exact Hne. eapply Hd, Hget.
Qed.

End DictFacts.

(** ** Validation *)

Lemma for_each_all_ok {A} (body : A -> result unit) (l : list A) :
  (forall x, In x l -> body x = ok tt) -> for_each body l = ok tt.
Proof.
  induction l as [|x l IH]; intros H; simpl; [reflexivity|].
  rewrite (H x) by (left; reflexivity). simpl.
  apply IH. intros y Hy. apply H. now right.
Qed.

Lemma for_each_raises {A} (body : A -> result unit) (l : list A) e x :
  (forall y, body y = ok tt \/ body y = raise e) ->
  In x l -> body x = raise e -> for_each body l = raise e.
Proof.
  intros Hbody. induction l as [|y l IH]; intros Hin Hx; [contradiction|].
  simpl. destruct (Hbody y) as [Hy|Hy]; rewrite Hy; simpl; [|reflexivity].
  destruct Hin as [->|Hin]; [unfold ok, raise in *; congruence|]. now apply IH.
Qed.

Lemma for_each_result {A} (body : A -> result unit) (l : list A) e :
  (forall y, body y = ok tt \/ body y = raise e) ->
  for_each body l = ok tt \/ for_each body l = raise e.
Proof.
  intros Hbody. induction l as [|y l IH]; [now left|].
  cbn [for_each]. destruct (Hbody y) as [Hy|Hy]; rewrite Hy; [exact IH|now right].
Qed.

Lemma verify_tickers_invalid dic l t :
  In t l -> Dict.mem t dic = false ->
  verify_tickers dic (Some l) = raise Exception_.
Proof.
  intros Hin Hmem. unfold verify_tickers.
  destruct l as [|a l]; [contradiction|]. cbn [List.length Nat.ltb Nat.leb].
  apply for_each_raises with (x := t); [|exact Hin|now rewrite Hmem].
  intros y. destruct (Dict.mem y dic); auto.
Qed.

Lemma verif_cols_invalid l c :
  In c l -> list_mem c COLUMNS = false -> verif_cols (Some l) = raise Exception_.
Proof.
  intros Hin Hmem. unfold verif_cols.
  destruct l as [|a l]; [contradiction|]. cbn [List.length Nat.ltb Nat.leb].
  apply for_each_raises with (x := c); [|exact Hin|now rewrite Hmem].
  intros y. destruct (list_mem y COLUMNS); auto.
Qed.

Lemma verify_tickers_valid dic tickers_lst :
  valid_tickers dic tickers_lst ->
  (if truthy tickers_lst then verify_tickers dic tickers_lst else ok tt) = ok tt.
Proof.
  intros Hv. destruct tickers_lst as [[|a l]|]; try reflexivity.
  cbn [truthy verify_tickers List.length Nat.ltb Nat.leb].
  apply for_each_all_ok. intros x Hx. now rewrite (Hv _ x eq_refl Hx).
Qed.

Lemma verif_cols_valid col_lst :
  valid_cols col_lst ->
  (if truthy col_lst then verif_cols col_lst else ok tt) = ok tt.
Proof.
  intros Hv. destruct col_lst as [[|a l]|]; try reflexivity.
  cbn [truthy verif_cols List.length Nat.ltb Nat.leb].
  apply for_each_all_ok. intros x Hx. now rewrite (Hv _ x eq_refl Hx).
Qed.

Lemma verif_cols_result col_lst :
  verif_cols col_lst = ok tt \/ verif_cols col_lst = raise Exception_.
Proof.
  destruct col_lst as [l|]; [|now left]. unfold verif_cols.
  destruct (0 <? List.length l)%nat; [|now right].
  apply for_each_result. intros y. destruct (list_mem y COLUMNS); auto.
Qed.

(** ** Processing one ticker *)

Lemma project_total (l : list string) (raw acc : Dict.t string) :
  exists d, project l raw acc = ok d.
Proof.
  revert acc. induction l as [|key l IH]; intros acc; simpl.
  - now exists acc.
  - unfold Dict.mem, subscript.
    destruct (Dict.get key raw) as [v|]; simpl; apply IH.
Qed.

Lemma process_lines_total col_lst raw_data acc :
  exists recs, process_lines col_lst raw_data acc = ok recs.
Proof.
  revert acc. induction raw_data as [|line rest IH]; intros acc.
  - now exists acc.
  - cbn [process_lines]. rewrite line_to_dict_eq. cbn [rbind ok].
    destruct col_lst as [[|c cs]|]; cbn [rbind ok]; try apply IH.
    destruct (project_total (c :: cs)
                [("Volume", Str.slice line 0 14); ("Date", Str.slice line 14 25);
                 ("Adj Close", Str.slice line 25 44);
                 ("Close", Str.slice line 44 54);
                 ("Open", Str.slice line 54 60); ("High", Str.slice line 60 80)]
                Dict.empty) as (d & Hd).
    rewrite Hd. cbn [rbind ok]. apply IH.
Qed.

Lemma process_lines_unfiltered raw_data acc recs :
  process_lines None raw_data acc = ok recs ->
  (forall r, In r acc -> Dict.keys r = COLUMNS) ->
  forall r, In r recs -> Dict.keys r = COLUMNS.
Proof.
  revert acc. induction raw_data as [|line rest IH]; intros acc Hrun Hacc.
  - injection Hrun as <-. exact Hacc.
  - cbn [process_lines] in Hrun. rewrite line_to_dict_eq in Hrun.
    cbn [rbind ok] in Hrun. apply (IH _ Hrun).
    intros r Hr. apply in_app_or in Hr. destruct Hr as [Hr|[<-|[]]].
    + now apply Hacc.
    + reflexivity.
Qed.

(** ** The assembler *)

Section FileSystemFacts.

Variable PRJDIR : string.
Variable fs : string -> option string.

Local Abbreviation process := (process_ticker_data PRJDIR fs).
Local Abbreviation assemble := (create_data_dict PRJDIR fs).

Lemma read_dat_missing tic tr :
  fs (dat_path PRJDIR tic) = None ->
  read_dat PRJDIR fs tic tr =
  (raise (FileNotFoundError (dat_path PRJDIR tic)),
   (tr ++ [dat_path PRJDIR tic])%list).
Proof.
  intros Hfs. unfold read_dat, io_bind, open_rt.
  fold (dat_path PRJDIR tic). now rewrite Hfs.
Qed.

Lemma process_missing dic col_lst tic tr :
  fs (dat_path PRJDIR tic) = None ->
  process dic col_lst tic tr =
  (raise (FileNotFoundError (dat_path PRJDIR tic)),
   (tr ++ [dat_path PRJDIR tic])%list).
Proof.
  intros Hfs. unfold process_ticker_data, io_bind.
  now rewrite read_dat_missing.
Qed.

Lemma process_present dic col_lst tic tr text ex :
  fs (dat_path PRJDIR tic) = Some text ->
  Dict.get tic dic = Some ex ->
  exists recs,
    process_lines col_lst
      (map Str.strip (text_lines (universal_newlines text))) [] = ok recs /\
    process dic col_lst tic tr =
    (ok {| exchange := Str.lower ex; data := recs |},
     (tr ++ [dat_path PRJDIR tic])%list).
Proof.
  intros Hfs Hget.
  destruct (process_lines_total col_lst
              (map Str.strip (text_lines (universal_newlines text))) [])
    as (recs & Hrecs).
  exists recs. split; [exact Hrecs|].
  unfold process_ticker_data, read_dat, io_bind, open_rt, lift,
    io_ret, subscript.
  fold (dat_path PRJDIR tic). rewrite Hfs. cbn [ok].
  rewrite Hrecs. cbn [ok]. now rewrite Hget.
Qed.

(** A comprehension over tickers that all have a data file and an exchange
    returns, and every dataset it holds comes from [process]. *)
Lemma comprehension_returns dic col_lst (P : TickerDataset -> Prop) :
  (forall tic tr v tr', process dic col_lst tic tr = (ok v, tr') -> P v) ->
  forall target acc tr,
    (forall t, In t target -> fs (dat_path PRJDIR t) <> None) ->
    (forall t, In t target -> In t (Dict.keys dic)) ->
    all_values P acc ->
    exists out,
      comprehension (process dic col_lst) target acc tr =
      (ok out, (tr ++ map (dat_path PRJDIR) target)%list) /\
      all_values P out /\
      (NoDup target -> (forall t, In t target -> ~ In t (Dict.keys acc)) ->
       Dict.keys out = (Dict.keys acc ++ target)%list).
Proof.
  intros HP. induction target as [|t rest IH]; intros acc tr Hfs Hdic Hacc.
  - exists acc. cbn. rewrite !app_nil_r. auto.
  - destruct (fs (dat_path PRJDIR t)) as [text|] eqn:Ht;
      [|exfalso; apply (Hfs t); [now left|exact Ht]].
    destruct (get_in_keys dic t (Hdic t (or_introl eq_refl))) as (ex & Hex).
    destruct (process_present dic col_lst t tr text ex Ht Hex)
      as (recs & _ & Hrun).
    cbn [comprehension]. unfold io_bind. rewrite Hrun. cbn [ok].
    destruct (IH (Dict.set t {| exchange := Str.lower ex; data := recs |} acc)
                (tr ++ [dat_path PRJDIR t])%list) as (out & Hout & Hall & Hkeys).
    + intros t' Ht'. apply Hfs. now right.
    + intros t' Ht'. apply Hdic. now right.
    + apply all_values_set; [|exact Hacc]. eapply HP, Hrun.
    + exists out. split; [|split].
      * rewrite Hout. cbn [map]. now rewrite <- app_assoc.
      * exact Hall.
      * intros Hnd Hfresh. inversion Hnd as [|? ? Hnotin Hnd']; subst.
        rewrite Hkeys.
        -- rewrite keys_set_new by (apply Hfresh; now left).
           now rewrite <- app_assoc.
        -- exact Hnd'.
        -- intros t' Ht' Hin.
           rewrite keys_set_new in Hin by (apply Hfresh; now left).
           apply in_app_or in Hin. destruct Hin as [Hin|[->|[]]].
           ++ apply (Hfresh t'); [now right|exact Hin].
           ++ contradiction.
Qed.

(** A comprehension over tickers one of which has no data file ends in the
    exception of the first such read. *)
Lemma comprehension_propagates dic col_lst :
  forall target acc tr t,
    (forall t, In t target -> In t (Dict.keys dic)) ->
    In t target -> fs (dat_path PRJDIR t) = None ->
    exists t' tr',
      In t' target /\ fs (dat_path PRJDIR t') = None /\
      comprehension (process dic col_lst) target acc tr =
      (raise (FileNotFoundError (dat_path PRJDIR t')), tr').
Proof.
  induction target as [|t0 rest IH]; intros acc tr t Hdic Hin Hnone;
    [contradiction|].
  cbn [comprehension]. unfold io_bind.
  destruct (fs (dat_path PRJDIR t0)) as [text|] eqn:H0.
  - destruct (get_in_keys dic t0 (Hdic t0 (or_introl eq_refl))) as (ex & Hex).
    destruct (process_present dic col_lst t0 tr text ex H0 Hex)
      as (recs & _ & Hrun).
    rewrite Hrun. cbn [ok].
    destruct Hin as [->|Hin]; [congruence|].
    destruct (IH (Dict.set t0 {| exchange := Str.lower ex; data := recs |} acc)
                (tr ++ [dat_path PRJDIR t0])%list t) as (t' & tr' & H1 & H2 & H3);
      [intros t' Ht'; apply Hdic; now right|exact Hin|exact Hnone|].
    exists t', tr'. split; [now right|]. split; [exact H2|exact H3].
  - rewrite (process_missing dic col_lst t0 tr H0).
    exists t0, (tr ++ [dat_path PRJDIR t0])%list. split; [now left|].
    split; [exact H0|reflexivity].
Qed.

Lemma normalised_cols_result (col_lst : option (list string)) :
  let col_lst' := if negb (truthy col_lst) then None else col_lst in
  (if truthy col_lst' then verif_cols col_lst' else ok tt) = ok tt \/
  (if truthy col_lst' then verif_cols col_lst' else ok tt) = raise Exception_.
Proof.
  destruct col_lst as [[|c cs]|]; cbn [truthy negb]; try now left.
  apply verif_cols_result.
Qed.

(** Once both validations pass, the call is the comprehension over the
    target tickers. *)
Lemma assemble_valid dic tickers_lst col_lst tr :
  valid_cols col_lst -> valid_tickers dic tickers_lst ->
  assemble dic tickers_lst col_lst tr =
  comprehension
    (process dic (if negb (truthy col_lst) then None else col_lst))
    (or_else tickers_lst (Dict.keys dic)) Dict.empty tr.
Proof.
  intros Hc Ht. unfold create_data_dict, io_bind, lift.
  rewrite (verify_tickers_valid dic tickers_lst Ht).
  destruct col_lst as [[|c cs]|]; cbn [truthy negb]; try reflexivity.
  change (verif_cols (Some (c :: cs)))
    with (if truthy (Some (c :: cs)) then verif_cols (Some (c :: cs))
          else ok tt).
  now rewrite (verif_cols_valid _ Hc).
Qed.

Lemma target_in_keys dic tickers_lst :
  valid_tickers dic tickers_lst ->
  forall t, In t (or_else tickers_lst (Dict.keys dic)) -> In t (Dict.keys dic).
Proof.
  intros Hv t Hin. destruct tickers_lst as [[|a l]|]; cbn in Hin; try exact Hin.
  apply mem_keys. now apply (Hv (a :: l)).
Qed.

Lemma process_unfiltered_full dic tic tr v tr' :
  process dic None tic tr = (ok v, tr') -> full_records v.
Proof.
  unfold process_ticker_data, read_dat, io_bind, open_rt, lift, io_ret,
    subscript.
  destruct (fs _) as [text|]; cbn [ok raise]; [|discriminate].
  destruct (process_lines None _ []) as [e|recs] eqn:Hrecs; [discriminate|].
  destruct (Dict.get tic dic) as [ex|]; cbn [ok raise]; [|discriminate].
  intros H. injection H as <- _. intros r Hr. cbn [data] in Hr.
  eapply process_lines_unfiltered; [exact Hrecs| |exact Hr].
  intros r' [].
Qed.

(** C5: when a provided ticker list holds a symbol that is not a key of the
    map, or a provided column list holds a name outside the schema, the call
    ends in the validation exception and its log of opened files is empty:
    no data file has been read, and no result is produced. *)
Theorem validation_precedes_reads dic tickers_lst col_lst :
  (exists l t, tickers_lst = Some l /\ In t l /\ Dict.mem t dic = false) \/
  (exists l c, col_lst = Some l /\ In c l /\ list_mem c COLUMNS = false) ->
  run (assemble dic tickers_lst col_lst) = (raise Exception_, []).
Proof.
  intros [(l & t & -> & Hin & Hmem)|(l & c & -> & Hin & Hmem)];
    unfold run, create_data_dict, io_bind, lift.
  - destruct (normalised_cols_result col_lst) as [H|H]; cbv zeta in H;
      rewrite H; [|reflexivity].
    cbn [ok]. destruct l as [|a l]; [contradiction|]. cbn [truthy].
    now rewrite (verify_tickers_invalid dic (a :: l) t Hin Hmem).
  - destruct l as [|a l]; [contradiction|]. cbn [truthy negb].
    now rewrite (verif_cols_invalid (a :: l) c Hin Hmem).
Qed.

(** C8: with no ticker list and no column list, and a readable data file
    for every key of the map, the call returns a document whose keys are
    the keys of the map, each once, and every record of every dataset has
    the six schema columns. *)
Theorem assemble_defaults dic :
  Dict.wf dic ->
  (forall k, In k (Dict.keys dic) -> fs (dat_path PRJDIR k) <> None) ->
  exists out tr,
    run (assemble dic None None) = (ok out, tr) /\
    Dict.keys out = Dict.keys dic /\
    NoDup (Dict.keys out) /\
    all_values full_records out.
Proof.
  intros Hwf Hfs. unfold run.
  rewrite assemble_valid by (intros ? ? H; discriminate H).
  cbn [truthy negb or_else].
  destruct (comprehension_returns dic None full_records
              (process_unfiltered_full dic) (Dict.keys dic) Dict.empty []
              Hfs (fun t H => H)) as (out & Hout & Hall & Hkeys).
  - intros k v H. discriminate H.
  - exists out, ([] ++ map (dat_path PRJDIR) (Dict.keys dic))%list.
    split; [exact Hout|].
    assert (Hk : Dict.keys out = Dict.keys dic).
    { rewrite Hkeys; [reflexivity|exact Hwf|]. intros t _ []. }
    split; [exact Hk|]. split; [|exact Hall]. rewrite Hk. exact Hwf.
Qed.

(** C9: once validation has passed, a target ticker without a data file
    makes the call end in the [FileNotFoundError] that [read_dat] raises for
    the first such ticker, the same exception value: no document is
    returned and the ticker is not skipped. *)
Theorem missing_file_propagates dic tickers_lst col_lst t :
  valid_cols col_lst -> valid_tickers dic tickers_lst ->
  In t (or_else tickers_lst (Dict.keys dic)) ->
  fs (dat_path PRJDIR t) = None ->
  exists t' e tr,
    In t' (or_else tickers_lst (Dict.keys dic)) /\
    fs (dat_path PRJDIR t') = None /\
    e = FileNotFoundError (dat_path PRJDIR t') /\
    fst (run (read_dat PRJDIR fs t')) = raise e /\
    run (assemble dic tickers_lst col_lst) = (raise e, tr).
Proof.
  intros Hc Ht Hin Hnone. unfold run.
  rewrite (assemble_valid dic tickers_lst col_lst [] Hc Ht).
  destruct (comprehension_propagates dic
              (if negb (truthy col_lst) then None else col_lst)
              (or_else tickers_lst (Dict.keys dic)) Dict.empty [] t
              (target_in_keys dic tickers_lst Ht) Hin Hnone)
    as (t' & tr' & Hin' & Hnone' & Hrun).
  exists t', (FileNotFoundError (dat_path PRJDIR t')), tr'.
  repeat split; try assumption.
  now rewrite read_dat_missing.
Qed.

(** C1, as the code has it: [create_data_dict] never reports an empty
    ticker list.  The empty-list branch of [verify_tickers] raises, but the
    call reaches [verify_tickers] only with a list that is not empty, so an
    empty list is treated as an omitted one: the result is the one of the
    call without ticker list, a document over all keys of the map when the
    columns are valid and every key has a data file. *)
Theorem empty_tickers_as_omitted dic col_lst :
  verify_tickers dic (Some []) = raise Exception_ /\
  assemble dic (Some []) col_lst = assemble dic None col_lst /\
  (valid_cols col_lst -> Dict.wf dic ->
   (forall k, In k (Dict.keys dic) -> fs (dat_path PRJDIR k) <> None) ->
   exists out tr,
     run (assemble dic (Some []) col_lst) = (ok out, tr) /\
     Dict.keys out = Dict.keys dic).
Proof.
  split; [reflexivity|]. split; [reflexivity|].
  intros Hc Hwf Hfs. unfold run.
  rewrite assemble_valid;
    [|exact Hc|intros l t H Hin; injection H as <-; contradiction].
  cbn [or_else].
  destruct (comprehension_returns dic
              (if negb (truthy col_lst) then None else col_lst)
              (fun _ => True) (fun _ _ _ _ _ => I) (Dict.keys dic)
              Dict.empty [] Hfs (fun t H => H)) as (out & Hout & _ & Hkeys).
  - intros k v H. discriminate H.
  - exists out, ([] ++ map (dat_path PRJDIR) (Dict.keys dic))%list.
    split; [exact Hout|].
    rewrite Hkeys; [reflexivity|exact Hwf|]. intros t _ [].
Qed.

(** C3, as the code has it: [create_data_dict] never reports an empty
    column list.  The empty-list branch of [verif_cols] raises, but the call
    first replaces an empty column list by [None], so an empty list is
    treated as an omitted one: no column is filtered out, and when the
    tickers are valid and have data files every record of the document
    returned has the six schema columns. *)
Theorem empty_columns_as_omitted dic tickers_lst :
  verif_cols (Some []) = raise Exception_ /\
  assemble dic tickers_lst (Some []) = assemble dic tickers_lst None /\
  (valid_tickers dic tickers_lst ->
   (forall t, In t (or_else tickers_lst (Dict.keys dic)) ->
              fs (dat_path PRJDIR t) <> None) ->
   exists out tr,
     run (assemble dic tickers_lst (Some [])) = (ok out, tr) /\
     all_values full_records out).
Proof.
  split; [reflexivity|]. split; [reflexivity|].
  intros Ht Hfs. unfold run.
  rewrite assemble_valid;
    [|intros l c H Hin; injection H as <-; contradiction|exact Ht].
  cbn [truthy negb].
  destruct (comprehension_returns dic None full_records
              (process_unfiltered_full dic)
              (or_else tickers_lst (Dict.keys dic)) Dict.empty [] Hfs
              (target_in_keys dic tickers_lst Ht)) as (out & Hout & Hall & _).
  - intros k v H. discriminate H.
  - eexists out, _. split; [exact Hout|exact Hall].
Qed.

End FileSystemFacts.

(** ** The assembler on the sample data *)

Lemma validation_precedes_reads_witness :
  Dict.mem "nope" sample_dic = false /\
  run (create_data_dict "/prj" sample_fs sample_dic (Some ["aapl"; "nope"]) None)
  = (raise Exception_, []).
Proof.
  split; [reflexivity|].
  apply validation_precedes_reads. left.
  exists ["aapl"; "nope"], "nope".
  split; [reflexivity|]. split; [simpl; auto|reflexivity].
Defined.

Lemma assemble_defaults_witness :
  exists out tr,
    run (create_data_dict "/prj" sample_fs sample_dic None None) = (ok out, tr) /\
    Dict.keys out = Dict.keys sample_dic /\
    NoDup (Dict.keys out) /\
    all_values full_records out.
Proof.
  apply (assemble_defaults "/prj" sample_fs sample_dic).
  - repeat constructor. intros [].
  - intros k [<-|[]]. discriminate.
Defined.

Lemma missing_file_propagates_witness :
  exists t' e tr,
    In t' (or_else None (Dict.keys sample_dic2)) /\
    sample_fs (dat_path "/prj" t') = None /\
    e = FileNotFoundError (dat_path "/prj" t') /\
    fst (run (read_dat "/prj" sample_fs t')) = raise e /\
    run (create_data_dict "/prj" sample_fs sample_dic2 None (Some ["Date"]))
    = (raise e, tr).
Proof.
  apply (missing_file_propagates "/prj" sample_fs sample_dic2 None
           (Some ["Date"]) "baba").
  - intros l c H Hin. injection H as <-. destruct Hin as [<-|[]]. reflexivity.
  - intros l t H. discriminate H.
  - simpl; auto.
  - reflexivity.
Defined.

Lemma empty_tickers_as_omitted_witness :
  exists out tr,
    run (create_data_dict "/prj" sample_fs sample_dic (Some []) (Some ["Date"]))
    = (ok out, tr) /\
    Dict.keys out = Dict.keys sample_dic.
Proof.
  apply (proj2 (proj2 (empty_tickers_as_omitted "/prj" sample_fs sample_dic
                         (Some ["Date"])))).
  - intros l c H Hin. injection H as <-. destruct Hin as [<-|[]]. reflexivity.
  - repeat constructor. intros [].
  - intros k [<-|[]]. discriminate.
Defined.

Lemma empty_columns_as_omitted_witness :
  exists out tr,
    run (create_data_dict "/prj" sample_fs sample_dic (Some ["aapl"]) (Some []))
    = (ok out, tr) /\
    all_values full_records out.
Proof.
  apply (proj2 (proj2 (empty_columns_as_omitted "/prj" sample_fs sample_dic
                         (Some ["aapl"])))).
  - intros l t H Hin. injection H as <-. destruct Hin as [<-|[]]. reflexivity.
  - intros k [<-|[]]. discriminate.
Defined.

(** With an empty ticker list the call returns a document: it does not
    fail. *)
Lemma empty_tickers_not_rejected :
  ~ exists e,
      fst (run (create_data_dict "/prj" sample_fs sample_dic (Some []) None))
      = raise e.
Proof. vm_compute. intros [e H]. discriminate H. Qed.

(** With an empty column list the call returns a document: it does not
    fail. *)
Lemma empty_columns_not_rejected :
  ~ exists e,
      fst (run (create_data_dict "/prj" sample_fs sample_dic (Some ["aapl"])
                  (Some [])))
      = raise e.
Proof. vm_compute. intros [e H]. discriminate H. Qed.

(** ** Stripping and splitting *)

Section StripFacts.
Variable p : ascii -> bool.

Lemma lstrip_by_all ws s :
  Str.all p ws = true -> Str.lstrip_by p (ws ++ s) = Str.lstrip_by p s.
Proof.
  induction ws as [|c ws IH]; simpl; [reflexivity|].
  intros H. apply andb_prop in H. destruct H as [Hc Hws].
  rewrite Hc. now apply IH.
Qed.

Lemma rstrip_by_all ws :
  Str.all p ws = true -> Str.rstrip_by p ws = EmptyString.
Proof.
  induction ws as [|c ws IH]; simpl; [reflexivity|].
  intros H. apply andb_prop in H. destruct H as [Hc Hws].
  now rewrite IH, Hc.
Qed.

Lemma rstrip_by_app_all s ws :
  Str.all p ws = true -> Str.rstrip_by p (s ++ ws) = Str.rstrip_by p s.
Proof.
  intros H. induction s as [|c s IH]; simpl.
  - now apply rstrip_by_all.
  - now rewrite IH.
Qed.

Lemma rstrip_by_last s c :
  p c = false ->
  Str.rstrip_by p (s ++ String c EmptyString) = s ++ String c EmptyString.
Proof.
  intros Hc. induction s as [|a s IH]; simpl.
  - now rewrite Hc.
  - rewrite IH. destruct s; reflexivity.
Qed.

Lemma strip_by_enclosed c s :
  p c = true ->
  Str.strip_by p (String c (s ++ String c EmptyString)) = Str.strip_by p s.
Proof.
  intros Hc. unfold Str.strip_by. cbn [Str.lstrip_by]. rewrite Hc.
  induction s as [|a s IH]; simpl.
  - now rewrite Hc.
  - destruct (p a) eqn:Ha; [exact IH|].
    change (String a (s ++ String c EmptyString))
      with (String a s ++ String c EmptyString).
    apply rstrip_by_app_all. simpl. now rewrite Hc.
Qed.

Lemma strip_by_fixed s :
  Str.all (fun c => negb (p c)) s = true -> Str.strip_by p s = s.
Proof.
  unfold Str.strip_by. destruct s as [|c s]; [reflexivity|].
  intros H. cbn [Str.all] in H. apply andb_prop in H. destruct H as [Hc Hs].
  apply negb_true_iff in Hc. cbn [Str.lstrip_by]. rewrite Hc.
  revert c Hc. induction s as [|a s IH]; intros c Hc; simpl.
  - now rewrite Hc.
  - cbn [Str.all] in Hs. apply andb_prop in Hs. destruct Hs as [Ha Hs].
    apply negb_true_iff in Ha. specialize (IH Hs a Ha).
    simpl in IH. now rewrite IH.
Qed.

Lemma strip_by_padded ws1 ws2 c d s :
  Str.all p ws1 = true -> Str.all p ws2 = true ->
  p c = false -> p d = false ->
  Str.strip_by p (ws1 ++ String c (s ++ String d EmptyString) ++ ws2) =
  String c (s ++ String d EmptyString).
Proof.
  intros H1 H2 Hc Hd. unfold Str.strip_by.
  rewrite (lstrip_by_all _ _ H1).
  replace (Str.lstrip_by p (String c (s ++ String d EmptyString) ++ ws2))
    with (String c (s ++ String d EmptyString) ++ ws2)
    by (simpl; now rewrite Hc).
  rewrite (rstrip_by_app_all _ _ H2).
  change (String c (s ++ String d EmptyString))
    with (String c s ++ String d EmptyString).
  now apply rstrip_by_last.
Qed.

End StripFacts.

Lemma contains_app c s t :
  Str.contains c (s ++ t) = Str.contains c s || Str.contains c t.
Proof.
  induction s as [|a s IH]; simpl; [reflexivity|].
  now rewrite IH, orb_assoc.
Qed.

Lemma all_excludes (p : ascii -> bool) c s :
  p c = false -> Str.all p s = true -> Str.contains c s = false.
Proof.
  intros Hc. induction s as [|a s IH]; simpl; [reflexivity|].
  intros H. apply andb_prop in H. destruct H as [Ha Hs].
  rewrite (IH Hs), orb_false_r. apply Ascii.eqb_neq. congruence.
Qed.

Lemma split_no_sep sep s :
  Str.contains sep s = false -> Str.split sep s = [s].
Proof.
  induction s as [|c s IH]; simpl; [reflexivity|].
  intros H. apply orb_false_elim in H. destruct H as [Hc Hs].
  now rewrite Hc, (IH Hs).
Qed.

Lemma split_app sep s t :
  Str.contains sep s = false ->
  Str.split sep (s ++ String sep t) = s :: Str.split sep t.
Proof.
  induction s as [|c s IH]; simpl.
  - now rewrite Ascii.eqb_refl.
  - intros H. apply orb_false_elim in H. destruct H as [Hc Hs].
    now rewrite Hc, (IH Hs).
Qed.

(** ** The lookup file *)

Lemma lookup_line_shape E T :
  lookup_line E T =
  String Str.dquote
    ((E ++ String Str.dquote (String Str.equals (String Str.dquote T)))
     ++ String Str.dquote EmptyString).
Proof.
  unfold lookup_line, quoted. cbn [append]. f_equal.
  rewrite !append_assoc. reflexivity.
Qed.

Lemma strip_lookup_line ws1 ws2 E T :
  Str.all Str.is_space ws1 = true -> Str.all Str.is_space ws2 = true ->
  Str.strip (ws1 ++ lookup_line E T ++ ws2) = lookup_line E T.
Proof.
  intros H1 H2. rewrite lookup_line_shape.
  apply strip_by_padded; auto.
Qed.

Lemma split_lookup_line E T :
  Str.contains Str.equals E = false -> Str.contains Str.equals T = false ->
  Str.split Str.equals (lookup_line E T) = [quoted E; quoted T].
Proof.
  intros HE HT. unfold lookup_line.
  rewrite split_app, split_no_sep; [reflexivity| |];
    unfold quoted; cbn [Str.contains]; rewrite contains_app;
    cbn [Str.contains]; rewrite ?HE, ?HT; reflexivity.
Qed.

Lemma strip_chars_quoted s :
  Str.strip_chars (String Str.dquote EmptyString) (quoted s) =
  Str.strip_chars (String Str.dquote EmptyString) s.
Proof. unfold Str.strip_chars, quoted. now apply strip_by_enclosed. Qed.

(** What one well-formed line does to the map: whitespace around the line
    is dropped, the quotes around both parts too. *)
Lemma get_tics_line_entry tic_map ws1 ws2 E T :
  Str.all Str.is_space ws1 = true -> Str.all Str.is_space ws2 = true ->
  Str.contains Str.equals E = false -> Str.contains Str.equals T = false ->
  get_tics_line tic_map (ws1 ++ lookup_line E T ++ ws2) =
  Dict.set
    (Str.lower (Str.strip_chars (String Str.dquote EmptyString) T))
    (Str.lower (Str.strip_chars (String Str.dquote EmptyString) E))
    tic_map.
Proof.
  intros H1 H2 HE HT. unfold get_tics_line.
  rewrite (strip_lookup_line _ _ _ _ H1 H2), (split_lookup_line _ _ HE HT).
  cbn [List.length Nat.leb last hd]. now rewrite !strip_chars_quoted.
Qed.

(** C4, as the code has it: whitespace is tolerated around the whole line
    only.  For a line made of whitespace, the quoted exchange, the equals
    sign, the quoted ticker and whitespace, the parts holding no equals
    sign, the loop of [get_tics] sets the entry whose key and value are the
    quoted contents without their surrounding double quotes, in lower
    case. *)
Theorem get_tics_line_outer_whitespace tic_map ws1 ws2 E T :
  Str.all Str.is_space ws1 = true -> Str.all Str.is_space ws2 = true ->
  Str.contains Str.equals E = false -> Str.contains Str.equals T = false ->
  let key := Str.lower (Str.strip_chars (String Str.dquote EmptyString) T) in
  let val := Str.lower (Str.strip_chars (String Str.dquote EmptyString) E) in
  let tic_map' := get_tics_line tic_map (ws1 ++ lookup_line E T ++ ws2) in
  tic_map' = Dict.set key val tic_map /\ Dict.get key tic_map' = Some val.
Proof.
  intros H1 H2 HE HT key val tic_map'. subst tic_map'.
  rewrite (get_tics_line_entry tic_map _ _ _ _ H1 H2 HE HT).
  split; [reflexivity|apply get_set_same].
Qed.

Lemma get_tics_line_outer_whitespace_witness :
  get_tics_line Dict.empty
    ("  " ++ lookup_line "NYSE" "IBM" ++ String Str.LF EmptyString)
  = Dict.set "ibm" "nyse" Dict.empty /\
  Dict.get "ibm"
    (get_tics_line Dict.empty
       ("  " ++ lookup_line "NYSE" "IBM" ++ String Str.LF EmptyString))
  = Some "nyse".
Proof.
  apply (get_tics_line_outer_whitespace Dict.empty "  "
           (String Str.LF EmptyString) "NYSE" "IBM"); reflexivity.
Defined.

(** With spaces around the equals sign the ticker keeps a space and a
    quote, and the exchange a quote and a space: the map has no entry for
    the ticker itself. *)
Lemma spaced_line_keeps_quotes :
  get_tics_lines [spaced_line] <> [("ibm", "nyse")] /\
  Dict.get "ibm" (get_tics_lines [spaced_line]) = None.
Proof. split; [vm_compute; intros H; discriminate H|reflexivity]. Qed.

Lemma all_impl (p q : ascii -> bool) s :
  (forall c, p c = true -> q c = true) ->
  Str.all p s = true -> Str.all q s = true.
Proof.
  intros Hpq. induction s as [|c s IH]; simpl; [reflexivity|].
  intros H. apply andb_prop in H. destruct H as [Hc Hs].
  now rewrite (Hpq c Hc), (IH Hs).
Qed.

Lemma plain_excludes c s :
  plain_char c = false -> plain s = true -> Str.contains c s = false.
Proof. apply all_excludes. Qed.

Lemma strip_chars_plain s :
  plain s = true -> Str.strip_chars (String Str.dquote EmptyString) s = s.
Proof.
  intros H. apply strip_by_fixed. revert H. apply all_impl.
  intros c Hc. cbn [Str.contains]. rewrite orb_false_r.
  apply negb_true_iff, Ascii.eqb_neq. intros <-. discriminate Hc.
Qed.

Lemma get_tics_line_plain tic_map E T :
  plain E = true -> plain T = true ->
  get_tics_line tic_map (entry_line (Some (E, T))) =
  Dict.set (Str.lower T) (Str.lower E) tic_map.
Proof.
  intros HE HT. cbn [entry_line].
  pose proof (get_tics_line_entry tic_map EmptyString
                (String Str.LF EmptyString) E T eq_refl eq_refl
                (plain_excludes Str.equals E eq_refl HE)
                (plain_excludes Str.equals T eq_refl HT)) as H.
  cbn [append] in H. rewrite H.
  now rewrite !strip_chars_plain.
Qed.

(** Lines that define other tickers leave the exchange of a ticker as it
    is. *)
Lemma get_tics_untouched k entries :
  forallb plain_entry entries = true ->
  (forall E T, In (Some (E, T)) entries -> Str.lower T <> k) ->
  forall acc,
    Dict.get k (fold_left get_tics_line (map entry_line entries) acc) =
    Dict.get k acc.
Proof.
  induction entries as [|e entries IH]; intros Hp Hk acc; [reflexivity|].
  cbn [forallb] in Hp. apply andb_prop in Hp. destruct Hp as [He Hp].
  cbn [map fold_left]. rewrite IH; [|exact Hp|intros E T H; apply (Hk E T); now right].
  destruct e as [[E T]|]; [|reflexivity].
  cbn [plain_entry] in He. apply andb_prop in He. destruct He as [HE HT].
  rewrite (get_tics_line_plain acc E T HE HT).
  apply get_set_other. apply (Hk E T). now left.
Qed.

Lemma get_tics_lines_last pre E T post :
  forallb plain_entry (pre ++ Some (E, T) :: post) = true ->
  (forall E' T', In (Some (E', T')) post -> Str.lower T' <> Str.lower T) ->
  Dict.get (Str.lower T)
    (get_tics_lines (map entry_line (pre ++ Some (E, T) :: post))) =
  Some (Str.lower E).
Proof.
  intros Hp Hpost. unfold get_tics_lines.
  rewrite forallb_app in Hp. apply andb_prop in Hp. destruct Hp as [_ Hp].
  cbn [forallb plain_entry] in Hp. apply andb_prop in Hp.
  destruct Hp as [HET Hp]. apply andb_prop in HET. destruct HET as [HE HT].
  rewrite map_app, fold_left_app. cbn [map fold_left].
  rewrite (get_tics_untouched _ post Hp Hpost).
  rewrite (get_tics_line_plain _ E T HE HT). apply get_set_same.
Qed.

(** ** Lines of a text file *)

Lemma universal_newlines_id s :
  Str.contains Str.CR s = false -> universal_newlines s = s.
Proof.
  induction s as [|c s IH]; simpl; [reflexivity|].
  intros H. apply orb_false_elim in H. destruct H as [Hc Hs].
  now rewrite Hc, (IH Hs).
Qed.

Lemma text_lines_app l rest :
  Str.contains Str.LF l = false ->
  text_lines (l ++ String Str.LF rest) =
  (l ++ String Str.LF EmptyString) :: text_lines rest.
Proof.
  induction l as [|c l IH]; simpl.
  - intros _. reflexivity.
  - intros H. apply orb_false_elim in H. destruct H as [Hc Hl].
    now rewrite Hc, (IH Hl).
Qed.

Lemma lookup_line_excludes c E T :
  plain_char c = false -> c <> Str.equals -> c <> Str.dquote ->
  plain E = true -> plain T = true ->
  Str.contains c (lookup_line E T) = false.
Proof.
  intros Hc Heq Hdq HE HT. unfold lookup_line, quoted.
  apply Ascii.eqb_neq in Heq, Hdq.
  rewrite (Ascii.eqb_sym c) in Heq, Hdq.
  cbn [Str.contains append].
  rewrite !contains_app. cbn [Str.contains].
  rewrite !contains_app. cbn [Str.contains].
  now rewrite Heq, Hdq, (plain_excludes c E Hc HE), (plain_excludes c T Hc HT).
Qed.

(** The lines Python yields for a lookup file are the lines it was made
    of. *)
Lemma text_lines_lookup entries :
  forallb plain_entry entries = true ->
  Str.contains Str.CR (lookup_text entries) = false /\
  text_lines (lookup_text entries) = map entry_line entries.
Proof.
  unfold lookup_text.
  induction entries as [|e entries IH]; intros Hp; [split; reflexivity|].
  cbn [forallb] in Hp. apply andb_prop in Hp. destruct Hp as [He Hp].
  destruct (IH Hp) as (Hcr & Hlines). cbn [map Str.concat].
  destruct e as [[E T]|]; cbn [entry_line].
  - cbn [plain_entry] in He. apply andb_prop in He. destruct He as [HE HT].
    rewrite append_assoc. cbn [append]. split.
    + rewrite contains_app. cbn [Str.contains]. rewrite Hcr.
      now rewrite (lookup_line_excludes Str.CR E T).
    + rewrite text_lines_app, Hlines; [reflexivity|].
      now apply lookup_line_excludes.
  - cbn [append]. split.
    + cbn [Str.contains]. now rewrite Hcr.
    + cbn [text_lines]. now rewrite Hlines.
Qed.

Section LookupFile.

Variable fs : string -> option string.

(** C7: for a lookup file whose lines are empty or of the form "E"="T",
    with plain names and nothing else on the line, [get_tics] returns a map
    that gives, for the ticker of every line, in lower case, the exchange,
    in lower case, of the last line that defines this ticker. *)
Theorem get_tics_last_wins pth entries :
  fs pth = Some (lookup_text entries) ->
  forallb plain_entry entries = true ->
  exists tic_map,
    run (get_tics fs pth) = (ok tic_map, [pth]) /\
    forall pre E T post,
      entries = (pre ++ Some (E, T) :: post)%list ->
      (forall E' T', In (Some (E', T')) post -> Str.lower T' <> Str.lower T) ->
      Dict.get (Str.lower T) tic_map = Some (Str.lower E).
Proof.
  intros Hfs Hp. destruct (text_lines_lookup entries Hp) as (Hcr & Hlines).
  exists (get_tics_lines (map entry_line entries)). split.
  - unfold run, get_tics, io_bind, open_rt, io_ret. rewrite Hfs.
    now rewrite (universal_newlines_id _ Hcr), Hlines.
  - intros pre E T post -> Hpost. apply get_tics_lines_last; assumption.
Qed.

End LookupFile.

Lemma get_tics_last_wins_witness :
  exists tic_map,
    run (get_tics sample_lookup_fs "/prj/project1/TICKERS.txt")
    = (ok tic_map, ["/prj/project1/TICKERS.txt"]) /\
    Dict.get "aapl" tic_map = Some "nyse" /\
    Dict.get "ibm" tic_map = Some "nyse".
Proof.
  destruct (get_tics_last_wins sample_lookup_fs "/prj/project1/TICKERS.txt"
              sample_entries eq_refl eq_refl) as (tic_map & Hrun & Hlast).
  exists tic_map. split; [exact Hrun|]. split.
  - apply (Hlast [Some ("NASDAQ", "AAPL"); None] "NYSE" "Aapl"
             [Some ("NYSE", "IBM")] eq_refl).
    intros E' T' [H|[]]. injection H as <- <-. discriminate.
  - apply (Hlast [Some ("NASDAQ", "AAPL"); None; Some ("NYSE", "Aapl")]
             "NYSE" "IBM" [] eq_refl).
    intros E' T' [].
Defined.

(** * Further properties *)

(** ** The validators *)

Lemma for_each_ok_inv {A} (body : A -> result unit) (l : list A) :
  for_each body l = ok tt -> forall x, In x l -> body x = ok tt.
Proof.
  induction l as [|y l IH]; intros H x Hin; [contradiction|].
  cbn [for_each] in H. destruct (body y) as [e|[]] eqn:Hy; [discriminate H|].
  destruct Hin as [<-|Hin]; [exact Hy|now apply IH].
Qed.

(** X1: [verify_tickers] returns or raises [Exception], and it returns
    exactly when no list is given or the list is not empty and all its
    tickers are keys of the map. *)
Theorem verify_tickers_accepts dic tickers_lst :
  (verify_tickers dic tickers_lst = ok tt \/
   verify_tickers dic tickers_lst = raise Exception_) /\
  (verify_tickers dic tickers_lst = ok tt <->
   tickers_lst = None \/
   exists t l, tickers_lst = Some (t :: l) /\
               forall x, In x (t :: l) -> Dict.mem x dic = true).
Proof.
  destruct tickers_lst as [[|t l]|].
  - split; [now right|]. split; [discriminate|].
    intros [H|(t & l & H & _)]; discriminate H.
  - cbn [verify_tickers List.length Nat.ltb Nat.leb]. split.
    + apply for_each_result. intros y. destruct (Dict.mem y dic); auto.
    + split.
      * intros H. right. exists t, l. split; [reflexivity|].
        intros x Hx. pose proof (for_each_ok_inv _ _ H x Hx) as Hb.
        cbv beta in Hb. destruct (Dict.mem x dic); [reflexivity|discriminate Hb].
      * intros [H|(t' & l' & H & Hall)]; [discriminate H|].
        injection H as <- <-. apply for_each_all_ok.
        intros x Hx. now rewrite (Hall x Hx).
  - split; [now left|]. split; auto.
Qed.

Lemma verify_tickers_accepts_witness :
  verify_tickers sample_dic2 (Some ["baba"; "aapl"; "baba"]) = ok tt.
Proof.
  apply (proj2 (proj2 (verify_tickers_accepts sample_dic2
                         (Some ["baba"; "aapl"; "baba"])))).
  right. exists "baba", ["aapl"; "baba"]. split; [reflexivity|].
  intros x [<-|[<-|[<-|[]]]]; reflexivity.
Defined.

(** X2: [verif_cols] returns or raises [Exception], and it returns exactly
    when no list is given or the list is not empty and all its names are
    schema columns. *)
Theorem verif_cols_accepts col_lst :
  (verif_cols col_lst = ok tt \/ verif_cols col_lst = raise Exception_) /\
  (verif_cols col_lst = ok tt <->
   col_lst = None \/
   exists c l, col_lst = Some (c :: l) /\
               forall x, In x (c :: l) -> In x COLUMNS).
Proof.
  split; [apply verif_cols_result|].
  destruct col_lst as [[|c l]|].
  - split; [discriminate|].
    intros [H|(c & l & H & _)]; discriminate H.
  - cbn [verif_cols List.length Nat.ltb Nat.leb]. split.
    + intros H. right. exists c, l. split; [reflexivity|].
      intros x Hx. pose proof (for_each_ok_inv _ _ H x Hx) as Hb.
      cbv beta in Hb. destruct (list_mem x COLUMNS) eqn:Hm; [|discriminate Hb].
      unfold list_mem in Hm. apply existsb_exists in Hm.
      destruct Hm as (y & Hy & Heq). apply String.eqb_eq in Heq. now subst.
    + intros [H|(c' & l' & H & Hall)]; [discriminate H|].
      injection H as <- <-. apply for_each_all_ok.
      intros x Hx. replace (list_mem x COLUMNS) with true; [reflexivity|].
      symmetry. unfold list_mem. apply existsb_exists.
      exists x. split; [now apply Hall|apply String.eqb_refl].
  - split; auto.
Qed.

Lemma verif_cols_accepts_witness :
  verif_cols (Some ["Close"; "Date"; "Close"]) = ok tt.
Proof.
  apply (proj2 (proj2 (verif_cols_accepts (Some ["Close"; "Date"; "Close"])))).
  right. exists "Close", ["Date"; "Close"]. split; [reflexivity|].
  intros x [<-|[<-|[<-|[]]]]; simpl; auto 10.
Defined.

(** ** More on stripping and splitting *)

Section StripMore.
Variable p : ascii -> bool.

Lemma lstrip_by_all_empty ws :
  Str.all p ws = true -> Str.lstrip_by p ws = EmptyString.
Proof.
  induction ws as [|c ws IH]; simpl; [reflexivity|].
  intros H. apply andb_prop in H. destruct H as [Hc Hws]. now rewrite Hc, IH.
Qed.

Lemma strip_by_app_all s ws :
  Str.all p ws = true -> Str.strip_by p (s ++ ws) = Str.strip_by p s.
Proof.
  intros H. unfold Str.strip_by. induction s as [|c s IH]; simpl.
  - now rewrite (lstrip_by_all_empty _ H).
  - destruct (p c); [exact IH|].
    change (String c (s ++ ws)) with (String c s ++ ws).
    now apply rstrip_by_app_all.
Qed.

(** Characters to strip around a string do not change what is left. *)
Lemma strip_by_padding ws1 ws2 s :
  Str.all p ws1 = true -> Str.all p ws2 = true ->
  Str.strip_by p (ws1 ++ s ++ ws2) = Str.strip_by p s.
Proof.
  intros H1 H2. unfold Str.strip_by at 1. rewrite (lstrip_by_all _ _ _ H1).
  now apply strip_by_app_all.
Qed.

Lemma contains_lstrip_by c s :
  Str.contains c s = false -> Str.contains c (Str.lstrip_by p s) = false.
Proof.
  induction s as [|a s IH]; simpl; [reflexivity|].
  intros H. destruct (p a); [|exact H].
  apply orb_false_elim in H. now apply IH.
Qed.

Lemma contains_rstrip_by c s :
  Str.contains c s = false -> Str.contains c (Str.rstrip_by p s) = false.
Proof.
  induction s as [|a s IH]; simpl; [reflexivity|].
  intros H. apply orb_false_elim in H. destruct H as [Ha Hs].
  specialize (IH Hs). destruct (Str.rstrip_by p s) as [|b r].
  - destruct (p a); simpl; [reflexivity|now rewrite Ha].
  - cbn [Str.contains]. cbn [Str.contains] in IH. now rewrite Ha, IH.
Qed.

Lemma rstrip_by_head c s :
  p c = false ->
  exists r, Str.rstrip_by p (String c s) = String c r.
Proof.
  intros Hc. simpl. destruct (Str.rstrip_by p s) as [|b r].
  - rewrite Hc. now exists EmptyString.
  - now exists (String b r).
Qed.

Lemma rstrip_by_idem s :
  Str.rstrip_by p (Str.rstrip_by p s) = Str.rstrip_by p s.
Proof.
  induction s as [|a s IH]; simpl; [reflexivity|].
  destruct (Str.rstrip_by p s) as [|b r] eqn:E.
  - destruct (p a) eqn:Ha; simpl; [reflexivity|now rewrite Ha].
  - cbn [Str.rstrip_by]. cbn [Str.rstrip_by] in IH. now rewrite IH.
Qed.

(** What is left after stripping starts with no character to strip. *)
Lemma strip_by_start c s :
  p c = true -> Str.startswith c (Str.strip_by p s) = false.
Proof.
  intros Hc. unfold Str.strip_by. induction s as [|a s IH]; simpl.
  - reflexivity.
  - destruct (p a) eqn:Ha; [exact IH|].
    destruct (rstrip_by_head a s Ha) as (r & Hr). rewrite Hr. simpl.
    apply Ascii.eqb_neq. congruence.
Qed.

Lemma rstrip_by_end c s :
  p c = true -> Str.endswith c (Str.rstrip_by p s) = false.
Proof.
  intros Hc. induction s as [|a s IH]; simpl; [reflexivity|].
  destruct (Str.rstrip_by p s) as [|b r] eqn:E.
  - destruct (p a) eqn:Ha; simpl; [reflexivity|].
    apply Ascii.eqb_neq. congruence.
  - exact IH.
Qed.

(** What is left after stripping ends with no character to strip. *)
Lemma strip_by_end c s :
  p c = true -> Str.endswith c (Str.strip_by p s) = false.
Proof. intros Hc. now apply rstrip_by_end. Qed.

(** Stripping twice is stripping once. *)
Lemma strip_by_idem s :
  Str.strip_by p (Str.strip_by p s) = Str.strip_by p s.
Proof.
  unfold Str.strip_by.
  assert (H : Str.lstrip_by p (Str.rstrip_by p (Str.lstrip_by p s)) =
              Str.rstrip_by p (Str.lstrip_by p s)).
  { induction s as [|a s IH]; [reflexivity|]. cbn [Str.lstrip_by].
    destruct (p a) eqn:Ha; [exact IH|].
    destruct (rstrip_by_head a s Ha) as (r & Hr). rewrite Hr. simpl.
    now rewrite Ha. }
  rewrite H. apply rstrip_by_idem.
Qed.

End StripMore.

Lemma split_nonempty sep s : Str.split sep s <> [].
Proof.
  destruct s as [|c s]; simpl; [discriminate|].
  destruct (Ascii.eqb c sep); [discriminate|].
  destruct (Str.split sep s); discriminate.
Qed.

(** Splitting around a separator: the parts before it, then the parts
    after it. *)
Lemma split_app_sep sep s t :
  Str.split sep (s ++ String sep t) = (Str.split sep s ++ Str.split sep t)%list.
Proof.
  induction s as [|c s IH]; simpl.
  - now rewrite Ascii.eqb_refl.
  - destruct (Ascii.eqb c sep); rewrite IH; [reflexivity|].
    destruct (Str.split sep s) as [|h r] eqn:E; [|reflexivity].
    now apply split_nonempty in E.
Qed.

(** ** More on the lookup file *)

(** X3: a line without equals sign leaves the map as it is. *)
Theorem get_tics_line_no_equals tic_map line :
  Str.contains Str.equals line = false ->
  get_tics_line tic_map line = tic_map.
Proof.
  intros H. unfold get_tics_line, Str.strip, Str.strip_by.
  rewrite split_no_sep; [reflexivity|].
  now apply contains_rstrip_by, contains_lstrip_by.
Qed.

Lemma get_tics_line_no_equals_witness :
  get_tics_line sample_dic ("NYSE IBM" ++ String Str.LF EmptyString)
  = sample_dic.
Proof. apply get_tics_line_no_equals. reflexivity. Defined.

(** X4: whitespace before and after a line of the lookup file, whatever
    the line, changes nothing to what the line does to the map. *)
Theorem get_tics_line_padding tic_map ws1 ws2 line :
  Str.all Str.is_space ws1 = true -> Str.all Str.is_space ws2 = true ->
  get_tics_line tic_map (ws1 ++ line ++ ws2) = get_tics_line tic_map line.
Proof.
  intros H1 H2. unfold get_tics_line, Str.strip.
  now rewrite (strip_by_padding _ _ _ _ H1 H2).
Qed.

Lemma get_tics_line_padding_witness :
  get_tics_line Dict.empty
    ("  " ++ lookup_line "NYSE" "IBM" ++ String Str.LF EmptyString)
  = get_tics_line Dict.empty (lookup_line "NYSE" "IBM").
Proof. apply get_tics_line_padding; reflexivity. Defined.

(** X5: on a line with two equals signs or more, the exchange is what
    comes before the first and the ticker what comes after the last;
    what lies between them is ignored. *)
Theorem get_tics_line_first_last tic_map line a mid b :
  Str.strip line = a ++ String Str.equals (mid ++ String Str.equals b) ->
  Str.contains Str.equals a = false -> Str.contains Str.equals b = false ->
  get_tics_line tic_map line =
  Dict.set
    (Str.lower (Str.strip_chars (String Str.dquote EmptyString) b))
    (Str.lower (Str.strip_chars (String Str.dquote EmptyString) a))
    tic_map.
Proof.
  intros Hline Ha Hb. unfold get_tics_line. rewrite Hline.
  rewrite split_app, split_app_sep, (split_no_sep _ b Hb) by exact Ha.
  destruct (Str.split Str.equals mid) as [|h r] eqn:E;
    [now apply split_nonempty in E|].
  replace (last (a :: (h :: r) ++ [b]) EmptyString) with b.
  - cbn [hd]. rewrite length_cons, length_app. cbn [List.length].
    replace (2 <=? S (S (List.length r) + 1))%nat with true; [reflexivity|].
    symmetry. apply Nat.leb_le. lia.
  - change (a :: (h :: r) ++ [b])%list with ((a :: h :: r) ++ [b])%list.
    now rewrite last_last.
Qed.

Lemma get_tics_line_first_last_witness :
  get_tics_line Dict.empty
    (quoted "NYSE" ++ "=x=" ++ quoted "IBM" ++ String Str.LF EmptyString)
  = Dict.set "ibm" "nyse" Dict.empty.
Proof.
  apply (get_tics_line_first_last Dict.empty _ (quoted "NYSE") "x"
           (quoted "IBM")); reflexivity.
Defined.

Lemma lower_char_idem c : Str.lower_char (Str.lower_char c) = Str.lower_char c.
Proof. destruct c as [[] [] [] [] [] [] [] []]; reflexivity. Qed.

Lemma lower_idem s : Str.lower (Str.lower s) = Str.lower s.
Proof.
  induction s as [|c s IH]; simpl; [reflexivity|].
  now rewrite lower_char_idem, IH.
Qed.

Lemma lower_char_dquote c :
  Ascii.eqb (Str.lower_char c) Str.dquote = Ascii.eqb c Str.dquote.
Proof. destruct c as [[] [] [] [] [] [] [] []]; reflexivity. Qed.

Lemma startswith_lower s :
  Str.startswith Str.dquote (Str.lower s) = Str.startswith Str.dquote s.
Proof. destruct s as [|c s]; simpl; [reflexivity|apply lower_char_dquote]. Qed.

Lemma endswith_lower s :
  Str.endswith Str.dquote (Str.lower s) = Str.endswith Str.dquote s.
Proof.
  induction s as [|c s IH]; [reflexivity|].
  destruct s as [|d s]; [apply lower_char_dquote|exact IH].
Qed.

Lemma in_set {V} (d : Dict.t V) k0 v0 k v :
  In (k, v) (Dict.set k0 v0 d) -> In (k, v) d \/ (k = k0 /\ v = v0).
Proof.
  induction d as [|[k' v'] d IH]; simpl.
  - intros [H|[]]. injection H as <- <-. now right.
  - destruct (String.eqb_spec k' k0) as [->|Hne]; simpl.
    + intros [H|H]; [injection H as <- <-; now right|left; now right].
    + intros [H|H]; [left; now left|].
      destruct (IH H) as [H'|H']; [left; now right|now right].
Qed.

Lemma get_in {V} (d : Dict.t V) k v : Dict.get k d = Some v -> In (k, v) d.
Proof.
  induction d as [|[k' v'] d IH]; simpl; [discriminate|].
  destruct (String.eqb_spec k' k) as [->|Hne].
  - intros H. injection H as <-. now left.
  - intros H. right. now apply IH.
Qed.

(** What holds of every stripped and lowered part holds of every key and
    every value of the map. *)
Lemma get_tics_lines_entries (Q : string -> Prop) :
  (forall s,
     Q (Str.lower (Str.strip_chars (String Str.dquote EmptyString) s))) ->
  forall lines acc,
    (forall k v, In (k, v) acc -> Q k /\ Q v) ->
    forall k v, In (k, v) (fold_left get_tics_line lines acc) -> Q k /\ Q v.
Proof.
  intros HQ. induction lines as [|line lines IH]; intros acc Hacc;
    [exact Hacc|].
  cbn [fold_left]. apply IH. intros k v Hin. unfold get_tics_line in Hin.
  destruct (2 <=? _)%nat; [|now apply Hacc].
  apply in_set in Hin. destruct Hin as [Hin|[-> ->]]; [now apply Hacc|].
  split; apply HQ.
Qed.

Lemma get_tics_returns fs pth tic_map tr :
  run (get_tics fs pth) = (ok tic_map, tr) ->
  exists lines, tic_map = get_tics_lines lines.
Proof.
  unfold run, get_tics, io_bind, open_rt, io_ret.
  destruct (fs pth) as [text|]; cbn [ok raise]; [|discriminate].
  intros H. injection H as <- _. eauto.
Qed.

(** X6: every key and every value of the map [get_tics] returns is in
    lower case. *)
Theorem get_tics_lowered fs pth tic_map tr :
  run (get_tics fs pth) = (ok tic_map, tr) ->
  forall k v, Dict.get k tic_map = Some v -> lowered k /\ lowered v.
Proof.
  intros Hrun k v Hget. destruct (get_tics_returns _ _ _ _ Hrun) as (lines & ->).
  apply (get_tics_lines_entries lowered) with (lines := lines) (acc := []).
  - intros s. apply lower_idem.
  - intros ? ? [].
  - now apply get_in.
Qed.

Lemma get_tics_lowered_witness :
  lowered "aapl" /\ lowered "nyse".
Proof.
  apply (get_tics_lowered sample_lookup_fs "/prj/project1/TICKERS.txt"
           (get_tics_lines (map entry_line sample_entries))
           ["/prj/project1/TICKERS.txt"]); reflexivity.
Defined.

(** X7: no key and no value of the map [get_tics] returns starts or ends
    with a double quote. *)
Theorem get_tics_unquoted fs pth tic_map tr :
  run (get_tics fs pth) = (ok tic_map, tr) ->
  forall k v, Dict.get k tic_map = Some v -> unquoted k /\ unquoted v.
Proof.
  intros Hrun k v Hget. destruct (get_tics_returns _ _ _ _ Hrun) as (lines & ->).
  apply (get_tics_lines_entries unquoted) with (lines := lines) (acc := []).
  - intros s. split.
    + rewrite startswith_lower. now apply strip_by_start.
    + rewrite endswith_lower. now apply strip_by_end.
  - intros ? ? [].
  - now apply get_in.
Qed.

Lemma get_tics_unquoted_witness :
  unquoted "aapl" /\ unquoted "nyse".
Proof.
  apply (get_tics_unquoted sample_lookup_fs "/prj/project1/TICKERS.txt"
           (get_tics_lines (map entry_line sample_entries))
           ["/prj/project1/TICKERS.txt"]); reflexivity.
Defined.

(** ** More on the reader and the decoder *)

(** X8: every line [read_dat] returns is stripped: stripping it again
    changes nothing, and it neither starts nor ends with a whitespace
    character.  The file is opened once. *)
Theorem read_dat_lines_stripped PRJDIR fs tic lines tr :
  run (read_dat PRJDIR fs tic) = (ok lines, tr) ->
  tr = [dat_path PRJDIR tic] /\
  forall l, In l lines ->
    Str.strip l = l /\
    forall c, Str.is_space c = true ->
      Str.startswith c l = false /\ Str.endswith c l = false.
Proof.
  unfold run, read_dat, io_bind, open_rt, io_ret.
  fold (dat_path PRJDIR tic).
  destruct (fs (dat_path PRJDIR tic)) as [text|]; cbn [ok raise];
    [|discriminate].
  intros H. injection H as <- <-. split; [reflexivity|].
  intros l Hl. apply in_map_iff in Hl. destruct Hl as (raw & <- & _).
  split; [apply strip_by_idem|].
  intros c Hc. split; [now apply strip_by_start|now apply strip_by_end].
Qed.

Lemma read_dat_lines_stripped_witness :
  [dat_path "/prj" "aapl"] = [dat_path "/prj" "aapl"] /\
  forall l, In l [Str.strip sample_line] ->
    Str.strip l = l /\
    forall c, Str.is_space c = true ->
      Str.startswith c l = false /\ Str.endswith c l = false.
Proof.
  apply (read_dat_lines_stripped "/prj" sample_fs "aapl"). reflexivity.
Defined.

Lemma take_take s n m : n <= m -> Str.take n (Str.take m s) = Str.take n s.
Proof.
  revert n m. induction s as [|c s IH]; intros n m H; [reflexivity|].
  destruct n as [|n]; [now rewrite !take_0|].
  destruct m as [|m]; [lia|]. simpl. f_equal. apply IH. lia.
Qed.

Lemma drop_take s a n : Str.drop a (Str.take n s) = Str.take (n - a) (Str.drop a s).
Proof.
  revert a n. induction s as [|c s IH]; intros a n; [reflexivity|].
  destruct n as [|n].
  - cbn [Str.take Nat.sub]. rewrite take_0. now destruct a.
  - destruct a as [|a]; [reflexivity|]. cbn [Str.take Str.drop Nat.sub].
    apply IH.
Qed.

Lemma slice_take s a b n :
  b <= n -> Str.slice (Str.take n s) a b = Str.slice s a b.
Proof.
  intros H. unfold Str.slice. rewrite drop_take. apply take_take. lia.
Qed.

(** X10: two lines have the same record exactly when their first 80
    characters are the same: what lies beyond the schema is ignored, and
    nothing else is. *)
Theorem line_to_dict_same_record l1 l2 :
  line_to_dict l1 = line_to_dict l2 <-> Str.take 80 l1 = Str.take 80 l2.
Proof.
  split.
  - intros H. pose proof (decode_concat_take l1) as H1.
    pose proof (decode_concat_take l2) as H2.
    unfold decode_concat in H1, H2. rewrite H in H1. rewrite H1 in H2.
    now injection H2.
  - intros H. rewrite !line_to_dict_eq.
    rewrite <- (slice_take l1 0 14 80), <- (slice_take l1 14 25 80),
      <- (slice_take l1 25 44 80), <- (slice_take l1 44 54 80),
      <- (slice_take l1 54 60 80), <- (slice_take l1 60 80 80) by lia.
    rewrite H.
    now rewrite !slice_take by lia.
Qed.

Lemma line_to_dict_same_record_witness :
  line_to_dict (sample_line ++ sample_line ++ "tail") =
  line_to_dict (sample_line ++ sample_line ++ "other").
Proof.
  apply (proj2 (line_to_dict_same_record _ _)). reflexivity.
Defined.

(** ** More on the assembler *)

Lemma decoded_eq line :
  decoded line =
  [("Volume", Str.slice line 0 14); ("Date", Str.slice line 14 25);
   ("Adj Close", Str.slice line 25 44); ("Close", Str.slice line 44 54);
   ("Open", Str.slice line 54 60); ("High", Str.slice line 60 80)].
Proof. reflexivity. Qed.

Lemma project_lookup l raw :
  forall acc d,
    project l raw acc = ok d ->
    forall c,
      Dict.get c d =
      if list_mem c l && Dict.mem c raw then Dict.get c raw else Dict.get c acc.
Proof.
  induction l as [|key l IH]; intros acc d H c.
  - injection H as <-. reflexivity.
  - cbn [project] in H. unfold list_mem. cbn [existsb].
    fold (list_mem c l). unfold Dict.mem, subscript in H.
    destruct (Dict.get key raw) as [v|] eqn:Hkey; cbn [rbind ok] in H.
    + rewrite (IH _ _ H c).
      destruct (String.eqb_spec c key) as [->|Hne].
      * rewrite get_set_same. unfold Dict.mem. rewrite Hkey.
        now destruct (list_mem key l).
      * cbn [orb]. rewrite get_set_other by congruence. reflexivity.
    + rewrite (IH _ _ H c).
      destruct (String.eqb_spec c key) as [->|Hne]; [|reflexivity].
      unfold Dict.mem. rewrite Hkey. cbn [orb]. now rewrite !andb_false_r.
Qed.

Lemma project_wf l raw :
  forall acc d,
    project l raw acc = ok d -> Dict.wf acc -> Dict.wf d.
Proof.
  induction l as [|key l IH]; intros acc d H Hwf.
  - now injection H as <-.
  - cbn [project] in H. unfold Dict.mem, subscript in H.
    destruct (Dict.get key raw) as [v|]; cbn [rbind ok] in H;
      [|now apply (IH _ _ H)].
    apply (IH _ _ H). unfold Dict.wf.
    destruct (in_dec string_dec key (Dict.keys acc)) as [Hin|Hin].
    + now rewrite keys_set_old.
    + rewrite keys_set_new by exact Hin.
      apply NoDup_app; [exact Hwf|repeat constructor; intros []|].
      intros x Hx [<-|[]]. contradiction.
Qed.

(** X11: the comprehension over a list of columns returns a record that,
    for every name, holds the value of the decoded record when the name is
    in the list, and nothing otherwise; no key occurs twice, also when the
    list names a column twice. *)
Theorem project_selects l raw :
  exists d,
    project l raw Dict.empty = ok d /\
    Dict.wf d /\
    forall c, Dict.get c d = if list_mem c l then Dict.get c raw else None.
Proof.
  destruct (project_total l raw Dict.empty) as (d & Hd).
  exists d. split; [exact Hd|]. split.
  - apply (project_wf _ _ _ _ Hd). constructor.
  - intros c. rewrite (project_lookup _ _ _ _ Hd c).
    destruct (list_mem c l); [|reflexivity]. unfold Dict.mem. cbn [andb].
    now destruct (Dict.get c raw).
Qed.

Lemma process_lines_formula col_lst raw_data acc :
  process_lines col_lst raw_data acc =
  ok (acc ++ map (fun line => selected col_lst (decoded line)) raw_data)%list.
Proof.
  revert acc. induction raw_data as [|line rest IH]; intros acc.
  - cbn. now rewrite app_nil_r.
  - cbn [process_lines map]. rewrite line_to_dict_eq. cbn [rbind ok].
    rewrite <- decoded_eq.
    destruct col_lst as [[|c cs]|]; cbn [rbind ok selected];
      try (rewrite IH, <- app_assoc; reflexivity).
    destruct (project_total (c :: cs) (decoded line) Dict.empty) as (d & Hd).
    rewrite Hd. cbn [rbind ok]. now rewrite IH, <- app_assoc.
Qed.

Lemma keys_set_in {V} (d : Dict.t V) k0 v k :
  In k (Dict.keys (Dict.set k0 v d)) <-> k = k0 \/ In k (Dict.keys d).
Proof.
  destruct (in_dec string_dec k0 (Dict.keys d)) as [Hin|Hin].
  - rewrite keys_set_old by exact Hin. split; [auto|].
    intros [->|H]; assumption.
  - rewrite keys_set_new by exact Hin. rewrite in_app_iff. simpl.
    split; [intros [H|[H|[]]]; auto|intros [H|H]; auto].
Qed.

Lemma set_wf {V} (d : Dict.t V) k v : Dict.wf d -> Dict.wf (Dict.set k v d).
Proof.
  intros Hwf. unfold Dict.wf.
  destruct (in_dec string_dec k (Dict.keys d)) as [Hin|Hin].
  - now rewrite keys_set_old.
  - rewrite keys_set_new by exact Hin.
    apply NoDup_app; [exact Hwf|repeat constructor; intros []|].
    intros x Hx [<-|[]]. contradiction.
Qed.

Lemma get_tics_lines_wf lines : Dict.wf (get_tics_lines lines).
Proof.
  unfold get_tics_lines.
  assert (H : forall acc, Dict.wf acc ->
                Dict.wf (fold_left get_tics_line lines acc)).
  { induction lines as [|line lines IH]; intros acc Hacc; [exact Hacc|].
    cbn [fold_left]. apply IH. unfold get_tics_line.
    destruct (2 <=? _)%nat; [now apply set_wf|exact Hacc]. }
  apply H. constructor.
Qed.

Section AssemblerMore.

Variable PRJDIR : string.
Variable fs : string -> option string.

Local Abbreviation process := (process_ticker_data PRJDIR fs).
Local Abbreviation assemble := (create_data_dict PRJDIR fs).

Lemma process_trace dic col_lst tic tr :
  snd (process dic col_lst tic tr) = (tr ++ [dat_path PRJDIR tic])%list.
Proof.
  unfold process_ticker_data, read_dat, io_bind, open_rt, lift, io_ret.
  fold (dat_path PRJDIR tic).
  destruct (fs (dat_path PRJDIR tic)); cbn [ok raise]; [|reflexivity].
  rewrite process_lines_formula. cbn [ok].
  now destruct (subscript dic tic).
Qed.

Lemma process_returns dic col_lst tic tr v tr' :
  process dic col_lst tic tr = (ok v, tr') ->
  exists text ex,
    fs (dat_path PRJDIR tic) = Some text /\
    Dict.get tic dic = Some ex /\
    v = {| exchange := Str.lower ex;
           data := map (fun line => selected col_lst (decoded line))
                       (stripped_lines text) |}.
Proof.
  unfold process_ticker_data, read_dat, io_bind, open_rt, lift, io_ret,
    subscript.
  fold (dat_path PRJDIR tic).
  destruct (fs (dat_path PRJDIR tic)) as [text|]; cbn [ok raise];
    [|discriminate].
  rewrite process_lines_formula. cbn [ok app].
  destruct (Dict.get tic dic) as [ex|]; cbn [ok raise]; [|discriminate].
  intros H. injection H as <- _. now exists text, ex.
Qed.

(** What holds of every dataset [process] returns for its ticker holds of
    every entry of the document. *)
Lemma comprehension_keyed dic col_lst (Q : string -> TickerDataset -> Prop) :
  (forall t tr v tr', process dic col_lst t tr = (ok v, tr') -> Q t v) ->
  forall target acc tr out tr',
    comprehension (process dic col_lst) target acc tr = (ok out, tr') ->
    (forall k v, Dict.get k acc = Some v -> Q k v) ->
    forall k v, Dict.get k out = Some v -> Q k v.
Proof.
  intros HQ. induction target as [|t rest IH]; intros acc tr out tr' Hrun Hacc.
  - injection Hrun as <- _. exact Hacc.
  - cbn [comprehension] in Hrun. unfold io_bind in Hrun.
    destruct (process dic col_lst t tr) as [[e|v] tr1] eqn:Ht;
      [discriminate Hrun|].
    apply (IH _ _ _ _ Hrun). intros k v' Hget.
    destruct (String.eqb_spec t k) as [->|Hne].
    + rewrite get_set_same in Hget. injection Hget as <-. eapply HQ, Ht.
    + rewrite get_set_other in Hget by exact Hne. now apply Hacc.
Qed.

(** The keys of the document and the files opened for it. *)
Lemma comprehension_keys dic col_lst :
  forall target acc tr out tr',
    comprehension (process dic col_lst) target acc tr = (ok out, tr') ->
    (forall k, In k (Dict.keys out) <-> In k (Dict.keys acc) \/ In k target) /\
    (Dict.wf acc -> Dict.wf out) /\
    tr' = (tr ++ map (dat_path PRJDIR) target)%list.
Proof.
  induction target as [|t rest IH]; intros acc tr out tr' Hrun.
  - injection Hrun as <- <-. rewrite app_nil_r. repeat split; auto.
    intros [H|[]]; exact H.
  - cbn [comprehension] in Hrun. unfold io_bind in Hrun.
    pose proof (process_trace dic col_lst t tr) as Htr.
    destruct (process dic col_lst t tr) as [[e|v] tr1] eqn:Ht;
      [discriminate Hrun|].
    cbn [snd] in Htr. subst tr1.
    destruct (IH _ _ _ _ Hrun) as (Hk & Hwf & ->). split; [|split].
    + intros k. rewrite Hk, keys_set_in. simpl. split.
      * intros [[->|H]|H]; auto.
      * intros [H|[->|H]]; auto.
    + intros Hacc. apply Hwf. now apply set_wf.
    + cbn [map]. now rewrite <- app_assoc.
Qed.

Lemma files_all_or_missing (target : list string) :
  (forall t, In t target -> fs (dat_path PRJDIR t) <> None) \/
  (exists t, In t target /\ fs (dat_path PRJDIR t) = None).
Proof.
  induction target as [|t rest [IH|(t' & Hin & Hnone)]].
  - left. intros t [].
  - destruct (fs (dat_path PRJDIR t)) eqn:Ht.
    + left. intros t' [<-|H]; [congruence|now apply IH].
    + right. exists t. split; [now left|exact Ht].
  - right. exists t'. split; [now right|exact Hnone].
Qed.

(** A call either stops at validation, without opening a file, or is the
    comprehension over target tickers that are keys of the map. *)
Lemma assemble_outcome dic tickers_lst col_lst :
  run (assemble dic tickers_lst col_lst) = (raise Exception_, []) \/
  ((forall t, In t (or_else tickers_lst (Dict.keys dic)) ->
              In t (Dict.keys dic)) /\
   run (assemble dic tickers_lst col_lst) =
   comprehension (process dic (normalised col_lst))
     (or_else tickers_lst (Dict.keys dic)) Dict.empty []).
Proof.
  unfold run, create_data_dict, io_bind, lift. fold (normalised col_lst).
  destruct (normalised_cols_result col_lst) as [H|H]; cbv zeta in H;
    fold (normalised col_lst) in H; rewrite H; [|now left].
  cbn [ok].
  destruct tickers_lst as [[|a l]|]; cbn [truthy ok or_else];
    try (right; split; [auto|reflexivity]).
  cbn [verify_tickers List.length Nat.ltb Nat.leb].
  destruct (for_each_result
              (fun i => if Dict.mem i dic then ok tt else raise Exception_)
              (a :: l) Exception_) as [Hv|Hv].
  - intros y. destruct (Dict.mem y dic); auto.
  - rewrite Hv. right. split; [|reflexivity].
    intros t Ht. apply mem_keys.
    pose proof (for_each_ok_inv _ _ Hv t Ht) as Hb. cbv beta in Hb.
    destruct (Dict.mem t dic); [reflexivity|discriminate Hb].
  - rewrite Hv. now left.
Qed.

(** X12: in a document [create_data_dict] returns, the dataset of a ticker
    has the exchange of the map in lower case and one record per line of
    the ticker's data file, blank lines included, in the order of the
    file: the record decoded from the stripped line, cut down to the
    requested columns when a non-empty column list is given. *)
Theorem assemble_datasets dic tickers_lst col_lst out tr :
  run (assemble dic tickers_lst col_lst) = (ok out, tr) ->
  forall t ds, Dict.get t out = Some ds ->
    exists text ex,
      fs (dat_path PRJDIR t) = Some text /\
      Dict.get t dic = Some ex /\
      exchange ds = Str.lower ex /\
      data ds = map (fun line => selected (normalised col_lst) (decoded line))
                    (stripped_lines text).
Proof.
  intros Hrun.
  destruct (assemble_outcome dic tickers_lst col_lst) as [H|[_ H]];
    rewrite H in Hrun; [discriminate Hrun|].
  apply (comprehension_keyed dic (normalised col_lst)
           (fun t ds =>
              exists text ex,
                fs (dat_path PRJDIR t) = Some text /\
                Dict.get t dic = Some ex /\
                exchange ds = Str.lower ex /\
                data ds =
                map (fun line => selected (normalised col_lst) (decoded line))
                    (stripped_lines text)))
    with (target := or_else tickers_lst (Dict.keys dic)) (acc := Dict.empty)
         (tr := []) (tr' := tr); [|exact Hrun|discriminate].
  intros t tr0 v tr1 Hv.
  destruct (process_returns _ _ _ _ _ _ Hv) as (text & ex & Hfs & Hex & ->).
  exists text, ex. auto.
Qed.

(** X13: a document [create_data_dict] returns has exactly the target
    tickers as keys, each once, also when the ticker list names a ticker
    twice; the data files were opened in the order of the target tickers,
    one opening per occurrence. *)
Theorem assemble_covers_target dic tickers_lst col_lst out tr :
  run (assemble dic tickers_lst col_lst) = (ok out, tr) ->
  (forall t, Dict.mem t out = true <->
             In t (or_else tickers_lst (Dict.keys dic))) /\
  Dict.wf out /\
  tr = map (dat_path PRJDIR) (or_else tickers_lst (Dict.keys dic)).
Proof.
  intros Hrun.
  destruct (assemble_outcome dic tickers_lst col_lst) as [H|[_ H]];
    rewrite H in Hrun; [discriminate Hrun|].
  destruct (comprehension_keys _ _ _ _ _ _ _ Hrun) as (Hk & Hwf & Htr).
  split; [|split].
  - intros t. rewrite mem_keys, Hk. simpl. split; [intros [[]|Ht]|]; auto.
  - apply Hwf. constructor.
  - exact Htr.
Qed.

(** X15: [get_tics] and [create_data_dict] compose: whatever the text of
    the lookup file, when every ticker of the map read from it has a data
    file, the call with the defaults on that map returns a document with
    the keys of the map, in the order of the map, having opened the lookup
    file and then the data files in that order. *)
Theorem load_then_assemble pth tic_map tr0 :
  run (get_tics fs pth) = (ok tic_map, tr0) ->
  (forall t, In t (Dict.keys tic_map) -> fs (dat_path PRJDIR t) <> None) ->
  exists out,
    run (dic <~ get_tics fs pth ;; assemble dic None None) =
    (ok out, pth :: map (dat_path PRJDIR) (Dict.keys tic_map)) /\
    Dict.keys out = Dict.keys tic_map.
Proof.
  intros Hload Hfs.
  destruct (get_tics_returns _ _ _ _ Hload) as (lines & Hmap).
  assert (Htr : tr0 = [pth]).
  { revert Hload. unfold run, get_tics, io_bind, open_rt, io_ret.
    destruct (fs pth); cbn [ok raise]; [|discriminate].
    intros H. now injection H. }
  subst tr0. unfold run in *. unfold io_bind at 1. rewrite Hload. cbn [ok].
  rewrite assemble_valid by (intros ? ? H; discriminate H).
  cbn [or_else truthy negb].
  destruct (comprehension_returns PRJDIR fs tic_map None
              (fun _ => True) (fun _ _ _ _ _ => I)
              (Dict.keys tic_map) Dict.empty [pth] Hfs (fun t H => H))
    as (out & Hout & _ & Hkeys).
  - intros k v Hget. discriminate Hget.
  - exists out. split; [exact Hout|].
    rewrite Hkeys; [reflexivity| |intros t _ []].
    rewrite Hmap. apply get_tics_lines_wf.
Qed.

End AssemblerMore.

(** ** More of the assembler on the sample data *)

Lemma assemble_datasets_witness :
  exists text ex,
    sample_fs (dat_path "/prj" "aapl") = Some text /\
    Dict.get "aapl" sample_dic = Some ex /\
    exchange sample_dataset = Str.lower ex /\
    data sample_dataset =
    map (fun line =>
           selected (normalised (Some ["Date"; "Close"])) (decoded line))
        (stripped_lines text).
Proof.
  apply (assemble_datasets "/prj" sample_fs sample_dic (Some ["aapl"])
           (Some ["Date"; "Close"]) [("aapl", sample_dataset)]
           [dat_path "/prj" "aapl"]).
  - reflexivity.
  - reflexivity.
Defined.

Lemma assemble_covers_target_witness :
  (forall t, Dict.mem t [("aapl", sample_dataset)] = true <->
             In t (or_else (Some ["aapl"; "aapl"]) (Dict.keys sample_dic))) /\
  Dict.wf [("aapl", sample_dataset)] /\
  [dat_path "/prj" "aapl"; dat_path "/prj" "aapl"] =
  map (dat_path "/prj") (or_else (Some ["aapl"; "aapl"]) (Dict.keys sample_dic)).
Proof.
  apply (assemble_covers_target "/prj" sample_fs sample_dic
           (Some ["aapl"; "aapl"]) (Some ["Date"; "Close"])).
  reflexivity.
Defined.

Lemma load_then_assemble_witness :
  exists out,
    run (dic <~ get_tics sample_project_fs "/prj/project1/TICKERS.txt" ;;
         create_data_dict "/prj" sample_project_fs dic None None) =
    (ok out,
     "/prj/project1/TICKERS.txt"
     :: map (dat_path "/prj") (Dict.keys sample_dic)) /\
    Dict.keys out = Dict.keys sample_dic.
Proof.
  apply (load_then_assemble "/prj" sample_project_fs
           "/prj/project1/TICKERS.txt" sample_dic
           ["/prj/project1/TICKERS.txt"]).
  - reflexivity.
  - intros t [<-|[]]. discriminate.
Defined.

(** ** Filtered records *)

Lemma decoded_mem line col : Dict.mem col (decoded line) = list_mem col COLUMNS.
Proof.
  rewrite decoded_eq. unfold Dict.mem, list_mem. cbn [Dict.get existsb COLUMNS].
  rewrite !(String.eqb_sym col).
  repeat match goal with
         | |- context [String.eqb ?a col] => destruct (String.eqb a col)
         end; reflexivity.
Qed.

Lemma selected_mem c cs raw col :
  Dict.mem col (selected (Some (c :: cs)) raw) =
  list_mem col (c :: cs) && Dict.mem col raw.
Proof.
  unfold selected.
  destruct (project_total (c :: cs) raw Dict.empty) as (d & Hd). rewrite Hd.
  cbv beta iota delta [ok]. unfold Dict.mem at 1. rewrite (project_lookup _ _ _ _ Hd col).
  destruct (list_mem col (c :: cs) && Dict.mem col raw) eqn:E; [|reflexivity].
  apply andb_prop in E. destruct E as [_ E]. unfold Dict.mem in E.
  now destruct (Dict.get col raw).
Qed.

Section Filtering.

Variable PRJDIR : string.
Variable fs : string -> option string.

Lemma assemble_cols_checked dic tickers_lst c cs out tr :
  run (create_data_dict PRJDIR fs dic tickers_lst (Some (c :: cs))) = (ok out, tr) ->
  forall x, In x (c :: cs) -> list_mem x COLUMNS = true.
Proof.
  unfold run, create_data_dict, io_bind, lift. cbn [truthy negb].
  cbn [verif_cols List.length Nat.ltb Nat.leb].
  destruct (for_each _ (c :: cs)) as [e|[]] eqn:Hv; [discriminate|].
  intros _ x Hx. pose proof (for_each_ok_inv _ _ Hv x Hx) as Hb.
  cbv beta in Hb. destruct (list_mem x COLUMNS); [reflexivity|discriminate Hb].
Qed.

(** X16: when a non-empty column list is given, every record of a document
    [create_data_dict] returns has exactly the columns of the list as
    keys, and for each of them the value of the record decoded from its
    line. *)
Theorem assemble_filtered dic tickers_lst c cs out tr :
  run (create_data_dict PRJDIR fs dic tickers_lst (Some (c :: cs))) = (ok out, tr) ->
  forall t ds, Dict.get t out = Some ds ->
    exists text,
      fs (dat_path PRJDIR t) = Some text /\
      List.length (data ds) = List.length (stripped_lines text) /\
      forall i line rec,
        nth_error (stripped_lines text) i = Some line ->
        nth_error (data ds) i = Some rec ->
        forall col,
          Dict.mem col rec = list_mem col (c :: cs) /\
          (list_mem col (c :: cs) = true ->
           Dict.get col rec = Dict.get col (decoded line)).
Proof.
  intros Hrun t ds Hget.
  pose proof (assemble_cols_checked _ _ _ _ _ _ Hrun) as Hcols.
  destruct (assemble_outcome PRJDIR fs dic tickers_lst (Some (c :: cs)))
    as [H|[_ H]]; rewrite H in Hrun; [discriminate Hrun|].
  cbn [normalised truthy negb] in Hrun.
  assert (Hds : exists text,
             fs (dat_path PRJDIR t) = Some text /\
             data ds = map (fun line => selected (Some (c :: cs)) (decoded line))
                           (stripped_lines text)).
  { apply (comprehension_keyed PRJDIR fs dic (Some (c :: cs))
             (fun t ds =>
                exists text,
                  fs (dat_path PRJDIR t) = Some text /\
                  data ds =
                  map (fun line => selected (Some (c :: cs)) (decoded line))
                      (stripped_lines text)))
      with (target := or_else tickers_lst (Dict.keys dic)) (acc := Dict.empty)
           (tr := []) (tr' := tr) (out := out) (k := t) (v := ds);
      [|exact Hrun|discriminate|exact Hget].
    intros t0 tr0 v tr1 Hv.
    destruct (process_returns _ _ _ _ _ _ _ _ Hv) as (text & ex & Hfs & _ & ->).
    now exists text. }
  destruct Hds as (text & Hfs & Hdata). exists text. split; [exact Hfs|].
  rewrite Hdata. split; [apply length_map|].
  intros i line rec Hline Hrec col. rewrite nth_error_map, Hline in Hrec.
  cbn [option_map] in Hrec.
  assert (Hr : rec = selected (Some (c :: cs)) (decoded line)) by congruence.
  subst rec. clear Hrec.
  assert (Hmem : Dict.mem col (selected (Some (c :: cs)) (decoded line)) =
                 list_mem col (c :: cs)).
  { rewrite selected_mem, decoded_mem.
    destruct (list_mem col (c :: cs)) eqn:E; [|reflexivity].
    unfold list_mem in E. apply existsb_exists in E.
    destruct E as (x & Hx & Heq). apply String.eqb_eq in Heq. subst x.
    now rewrite (Hcols col Hx). }
  split; [exact Hmem|].
  intros Hin. unfold selected.
  destruct (project_total (c :: cs) (decoded line) Dict.empty) as (d & Hd).
  rewrite Hd. cbv beta iota delta [ok].
  rewrite (project_lookup _ _ _ _ Hd col), Hin.
  cbn [andb]. unfold Dict.mem. now destruct (Dict.get col (decoded line)).
Qed.

End Filtering.

Lemma assemble_filtered_witness :
  exists text,
    sample_fs (dat_path "/prj" "aapl") = Some text /\
    List.length (data sample_dataset) = List.length (stripped_lines text) /\
    forall i line rec,
      nth_error (stripped_lines text) i = Some line ->
      nth_error (data sample_dataset) i = Some rec ->
      forall col,
        Dict.mem col rec = list_mem col ["Date"; "Close"] /\
        (list_mem col ["Date"; "Close"] = true ->
         Dict.get col rec = Dict.get col (decoded line)).
Proof.
  apply (assemble_filtered "/prj" sample_fs sample_dic (Some ["aapl"])
           "Date" ["Close"] [("aapl", sample_dataset)]
           [dat_path "/prj" "aapl"] eq_refl "aapl" sample_dataset eq_refl).
Defined.

(** ** Padded and blank lines of a data file *)

Lemma strip_blank ws : Str.all Str.is_space ws = true -> Str.strip ws = EmptyString.
Proof.
  intros H. unfold Str.strip, Str.strip_by.
  now rewrite (lstrip_by_all_empty _ _ H).
Qed.

Section PaddedAndBlank.

Variable PRJDIR : string.
Variable fs : string -> option string.

(** C2: the example at the widths it states.  On the line whose pieces
    fill their columns (14, 11 and 19 characters) the decoder followed by
    the selection of [Date] and [Close] gives the record of the example.
    [create_data_dict] does not: [read_dat] strips the line first, the
    padding of the first column is lost and every column moves to the left
    by 11 characters, so [Date] is the start of the third piece. *)
Theorem padded_line_loses_alignment text :
  fs (dat_path PRJDIR "aapl") = Some text ->
  text = padded_line \/ text = padded_line ++ String Str.LF EmptyString ->
  String.length padded_line = 44 /\
  (raw_line <- line_to_dict padded_line ;;
   project ["Date"; "Close"] raw_line Dict.empty)
  = ok [("Date", "2020-01-01 "); ("Close", EmptyString)] /\
  run (create_data_dict PRJDIR fs sample_dic (Some ["aapl"])
         (Some ["Date"; "Close"]))
  = (ok padded_result, [dat_path PRJDIR "aapl"]) /\
  fst (run (create_data_dict PRJDIR fs sample_dic (Some ["aapl"])
              (Some ["Date"; "Close"])))
  <> ok sample_expected.
Proof.
  intros Hfs Htext. split; [reflexivity|]. split; [reflexivity|].
  assert (Hrun : run (create_data_dict PRJDIR fs sample_dic (Some ["aapl"])
                        (Some ["Date"; "Close"]))
                 = (ok padded_result, [dat_path PRJDIR "aapl"])).
  { unfold run. rewrite assemble_valid.
    - cbn [truthy negb or_else comprehension]. unfold io_bind.
      destruct (process_present PRJDIR fs sample_dic (Some ["Date"; "Close"])
                  "aapl" [] text "nasdaq" Hfs eq_refl) as (recs & Hrecs & Hrun).
      rewrite Hrun. cbn [ok io_ret app].
      assert (Hdata : recs = [[("Date", "    150.000"); ("Close", EmptyString)]]).
      { destruct Htext as [->| ->]; vm_compute in Hrecs;
          injection Hrecs as <-; reflexivity. }
      rewrite Hdata. reflexivity.
    - intros l c H Hin. injection H as <-.
      destruct Hin as [<-|[<-|[]]]; reflexivity.
    - intros l t H Hin. injection H as <-.
      destruct Hin as [<-|[]]; reflexivity. }
  split; [exact Hrun|]. rewrite Hrun. cbn [fst]. intros H. discriminate H.
Qed.

(** X9: a line of a data file made of whitespace only is not skipped.  In
    a document [create_data_dict] returns without column list, the dataset
    of a ticker has as many records as the data file has lines, and at the
    position of a whitespace-only line it has the record of the six
    columns, all empty. *)
Theorem blank_line_kept dic tickers_lst out tr t ds text :
  run (create_data_dict PRJDIR fs dic tickers_lst None) = (ok out, tr) ->
  Dict.get t out = Some ds ->
  fs (dat_path PRJDIR t) = Some text ->
  List.length (data ds) =
  List.length (text_lines (universal_newlines text)) /\
  forall i raw,
    nth_error (text_lines (universal_newlines text)) i = Some raw ->
    Str.all Str.is_space raw = true ->
    nth_error (data ds) i = Some empty_record.
Proof.
  intros Hrun Hget Hfs.
  destruct (assemble_outcome PRJDIR fs dic tickers_lst None) as [H|[_ H]];
    rewrite H in Hrun; [discriminate Hrun|].
  cbn [normalised truthy negb] in Hrun.
  assert (Hds : exists text',
             fs (dat_path PRJDIR t) = Some text' /\
             data ds = map (fun line => selected None (decoded line))
                           (stripped_lines text')).
  { apply (comprehension_keyed PRJDIR fs dic None
             (fun t ds =>
                exists text',
                  fs (dat_path PRJDIR t) = Some text' /\
                  data ds = map (fun line => selected None (decoded line))
                                (stripped_lines text')))
      with (target := or_else tickers_lst (Dict.keys dic)) (acc := Dict.empty)
           (tr := []) (tr' := tr) (out := out) (k := t) (v := ds);
      [|exact Hrun|discriminate|exact Hget].
    intros t0 tr0 v tr1 Hv.
    destruct (process_returns _ _ _ _ _ _ _ _ Hv) as (text' & ex & Hfs' & _ & ->).
    now exists text'. }
  destruct Hds as (text' & Hfs' & Hdata).
  rewrite Hfs in Hfs'. injection Hfs' as <-.
  rewrite Hdata. unfold stripped_lines. split; [now rewrite !length_map|].
  intros i raw Hraw Hblank.
  rewrite !nth_error_map, Hraw. cbn [option_map selected].
  now rewrite (strip_blank raw Hblank).
Qed.

(** X14: a failing call of [create_data_dict] has one of two origins.
    Either validation raised [Exception], and no file has been opened; or
    [read_dat] raised for one of the target tickers, and the call ends in
    that same exception.  Nothing else in the call raises: neither
    [tic_exchange_dic[ticker]], nor [raw_line[key]], nor [line_to_dict]. *)
Theorem assemble_failure_origin dic tickers_lst col_lst e tr :
  run (create_data_dict PRJDIR fs dic tickers_lst col_lst) = (raise e, tr) ->
  (e = Exception_ /\ tr = []) \/
  exists t tr0,
    In t (or_else tickers_lst (Dict.keys dic)) /\
    fst (read_dat PRJDIR fs t tr0) = raise e.
Proof.
  intros Hrun.
  destruct (assemble_outcome PRJDIR fs dic tickers_lst col_lst)
    as [H|[Hkeys H]]; rewrite H in Hrun.
  - left. injection Hrun as <- <-. now split.
  - right.
    destruct (files_all_or_missing PRJDIR fs
                (or_else tickers_lst (Dict.keys dic)))
      as [Hall|(t & Hin & Hnone)].
    + destruct (comprehension_returns PRJDIR fs dic (normalised col_lst)
                  (fun _ => True) (fun _ _ _ _ _ => I)
                  (or_else tickers_lst (Dict.keys dic)) Dict.empty []
                  Hall Hkeys) as (out & Hout & _).
      * intros k v Hget. discriminate Hget.
      * rewrite Hout in Hrun. discriminate Hrun.
    + destruct (comprehension_propagates PRJDIR fs dic (normalised col_lst)
                  _ Dict.empty [] t Hkeys Hin Hnone)
        as (t' & tr' & Hin' & Hnone' & Hfail).
      rewrite Hfail in Hrun. injection Hrun as <- _.
      exists t', []. split; [exact Hin'|].
      now rewrite read_dat_missing.
Qed.

End PaddedAndBlank.

Lemma padded_line_loses_alignment_witness :
  String.length padded_line = 44 /\
  (raw_line <- line_to_dict padded_line ;;
   project ["Date"; "Close"] raw_line Dict.empty)
  = ok [("Date", "2020-01-01 "); ("Close", EmptyString)] /\
  run (create_data_dict "/prj" padded_fs sample_dic (Some ["aapl"])
         (Some ["Date"; "Close"]))
  = (ok padded_result, [dat_path "/prj" "aapl"]) /\
  fst (run (create_data_dict "/prj" padded_fs sample_dic (Some ["aapl"])
              (Some ["Date"; "Close"])))
  <> ok sample_expected.
Proof.
  apply (padded_line_loses_alignment "/prj" padded_fs padded_line).
  - reflexivity.
  - left. reflexivity.
Defined.

Lemma blank_line_kept_witness :
  List.length (data {| exchange := "nasdaq";
                       data := [decoded (Str.strip padded_line); empty_record;
                                decoded (Str.strip padded_line)] |}) = 3 /\
  nth_error [decoded (Str.strip padded_line); empty_record;
             decoded (Str.strip padded_line)] 1 = Some empty_record.
Proof.
  destruct (blank_line_kept "/prj" blank_fs sample_dic None
              [("aapl",
                {| exchange := "nasdaq";
                   data := [decoded (Str.strip padded_line); empty_record;
                            decoded (Str.strip padded_line)] |})]
              [dat_path "/prj" "aapl"] "aapl"
              {| exchange := "nasdaq";
                 data := [decoded (Str.strip padded_line); empty_record;
                          decoded (Str.strip padded_line)] |}
              (padded_line ++ String Str.LF ("   " ++ String Str.LF padded_line))
              eq_refl eq_refl eq_refl) as (Hlen & Hblank).
  split; [exact Hlen|].
  apply (Hblank 1 ("   " ++ String Str.LF EmptyString)); reflexivity.
Defined.

Lemma assemble_failure_origin_witness :
  (FileNotFoundError (dat_path "/prj" "baba") = Exception_ /\
   [dat_path "/prj" "aapl"; dat_path "/prj" "baba"] = []) \/
  exists t tr0,
    In t (or_else None (Dict.keys sample_dic2)) /\
    fst (read_dat "/prj" sample_fs t tr0)
    = raise (FileNotFoundError (dat_path "/prj" "baba")).
Proof.
  apply (assemble_failure_origin "/prj" sample_fs sample_dic2 None None).
  reflexivity.
Defined.
